(** * ZDT stepper-motor UART library: command encoder, frame receiver and
      position decoder of [utils/stepperMotorControl.py]

    The module is MicroPython code: it calls [time.ticks_ms],
    [time.ticks_diff], [time.sleep_ms] and [uart.any], none of which exists
    in CPython.  The two interpreters differ on one primitive the encoders
    rely on, the item store of a [bytearray]:
    - MicroPython keeps the low eight bits of the stored integer
      (implicit truncation, as for its [array] module);
    - CPython raises [ValueError] unless the integer is in [range(256)].
    The encoders are modelled over both, the runtime being a parameter, so
    that every statement says which behaviour it depends on.

    Python integers are [Z]; [>>] is [Z.shiftr] and [&] is [Z.land], which
    agree with Python on negative numbers too.  A [bytearray] is a [list Z]
    of byte values, updated in place with [<[i:=b]>]. *)

From Stdlib Require Import ZArith QArith Ascii String List Lia.
From stdpp Require Import base list strings gmap.
Import ListNotations.

Local Open Scope Z_scope.

(** ** Exceptions and the error monad *)

Inductive exn : Type :=
| ValueError   (* bytearray store out of range, bytes.fromhex on bad text *)
| IndexError   (* subscript out of range *)
| StructError. (* struct.unpack on a buffer of the wrong size *)

Inductive result (A : Type) : Type :=
| Ok (a : A)
| Raise (e : exn).
Arguments Ok {A} a.
Arguments Raise {A} e.

#[global] Instance result_ret : MRet result := fun A a => Ok a.
#[global] Instance result_bind : MBind result := fun A B f m =>
  match m with
  | Ok a => f a
  | Raise e => Raise e
  end.

(** ** The bytearray primitives *)

Inductive runtime : Type := MicroPython | CPython.

Definition is_byte (v : Z) : Prop := 0 <= v < 256.

Definition is_byteb (v : Z) : bool := (0 <=? v) && (v <? 256).

(** [bytearray(n)]: [n] zero bytes. *)
Definition bytearray (n : nat) : list Z := replicate n 0.

(** The byte a store of the integer [v] leaves in the array. *)
Definition byte_value (rt : runtime) (v : Z) : result Z :=
  match rt with
  | MicroPython => Ok (v mod 256)
  | CPython => if is_byteb v then Ok v else Raise ValueError
  end.

(** [cmd[i] = v] *)
Definition setitem (rt : runtime) (cmd : list Z) (i : nat) (v : Z)
  : result (list Z) :=
  if (i <? length cmd)%nat
  then b ← byte_value rt v; Ok (<[i:=b]> cmd)
  else Raise IndexError.

(** [0x01 if f else 0x00] *)
Definition flag (f : bool) : Z := if f then 0x01 else 0x00.

(** The stores of one runtime never fail on [v]. *)
Definition storable (rt : runtime) (v : Z) : Prop :=
  match rt with
  | MicroPython => True
  | CPython => is_byte v
  end.

(** The byte a store that does not fail leaves. *)
Definition stored (rt : runtime) (v : Z) : Z :=
  match rt with
  | MicroPython => v mod 256
  | CPython => v
  end.

(** ** Command encoder *)

Definition func_codes : gmap string Z :=
  list_to_map
    [ ("S_VER"%string, 0x1F); ("S_RL"%string, 0x20); ("S_PID"%string, 0x21);
      ("S_VBUS"%string, 0x24); ("S_CPHA"%string, 0x27);
      ("S_ENCL"%string, 0x31); ("S_TPOS"%string, 0x33);
      ("S_VEL"%string, 0x35); ("S_CPOS"%string, 0x36);
      ("S_PERR"%string, 0x37); ("S_FLAG"%string, 0x3A);
      ("S_ORG"%string, 0x3B); ("S_Conf"%string, 0x42);
      ("S_State"%string, 0x43) ].

Section Encoder.
Variable rt : runtime.

Definition Read_Sys_Params (addr : Z) (s : string) : result (list Z) :=
  let i := 0%nat in
  let cmd := bytearray 16 in
  cmd ← setitem rt cmd i addr;
  let i := (i + 1)%nat in
  '(cmd, i) ← match func_codes !! s with
              | Some code => cmd ← setitem rt cmd i code; Ok (cmd, (i + 1)%nat)
              | None => Ok (cmd, i)
              end;
  cmd ← setitem rt cmd i 0x6B;
  let i := (i + 1)%nat in
  Ok (take i cmd).

Definition Reset_CurPos_To_Zero (addr : Z) : result (list Z) :=
  let cmd := bytearray 4 in
  cmd ← setitem rt cmd 0 addr;
  cmd ← setitem rt cmd 1 0x0A;
  cmd ← setitem rt cmd 2 0x6D;
  cmd ← setitem rt cmd 3 0x6B;
  Ok cmd.

Definition Reset_Clog_Pro (addr : Z) : result (list Z) :=
  let cmd := bytearray 4 in
  cmd ← setitem rt cmd 0 addr;
  cmd ← setitem rt cmd 1 0x0E;
  cmd ← setitem rt cmd 2 0x52;
  cmd ← setitem rt cmd 3 0x6B;
  Ok cmd.

Definition Modify_Ctrl_Mode (addr : Z) (svF : bool) (ctrl_mode : Z)
  : result (list Z) :=
  let cmd := bytearray 6 in
  cmd ← setitem rt cmd 0 addr;
  cmd ← setitem rt cmd 1 0x46;
  cmd ← setitem rt cmd 2 0x69;
  cmd ← setitem rt cmd 3 (flag svF);
  cmd ← setitem rt cmd 4 ctrl_mode;
  cmd ← setitem rt cmd 5 0x6B;
  Ok cmd.

Definition En_Control (addr : Z) (state snF : bool) : result (list Z) :=
  let cmd := bytearray 16 in
  cmd ← setitem rt cmd 0 addr;
  cmd ← setitem rt cmd 1 0xF3;
  cmd ← setitem rt cmd 2 0xAB;
  cmd ← setitem rt cmd 3 (flag state);
  cmd ← setitem rt cmd 4 (flag snF);
  cmd ← setitem rt cmd 5 0x6B;
  Ok (take 6 cmd).

Definition Vel_Control (addr dir vel acc : Z) (snF : bool)
  : result (list Z) :=
  let cmd := bytearray 16 in
  cmd ← setitem rt cmd 0 addr;
  cmd ← setitem rt cmd 1 0xF6;
  cmd ← setitem rt cmd 2 dir;
  cmd ← setitem rt cmd 3 (Z.land (Z.shiftr vel 8) 0xFF);
  cmd ← setitem rt cmd 4 (Z.land vel 0xFF);
  cmd ← setitem rt cmd 5 acc;
  cmd ← setitem rt cmd 6 (flag snF);
  cmd ← setitem rt cmd 7 0x6B;
  Ok (take 8 cmd).

Definition Pos_Control (addr dir vel acc clk : Z) (raF snF : bool)
  : result (list Z) :=
  let cmd := bytearray 16 in
  cmd ← setitem rt cmd 0 addr;
  cmd ← setitem rt cmd 1 0xFD;
  cmd ← setitem rt cmd 2 dir;
  cmd ← setitem rt cmd 3 (Z.land (Z.shiftr vel 8) 0xFF);
  cmd ← setitem rt cmd 4 (Z.land vel 0xFF);
  cmd ← setitem rt cmd 5 acc;
  cmd ← setitem rt cmd 6 (Z.land (Z.shiftr clk 24) 0xFF);
  cmd ← setitem rt cmd 7 (Z.land (Z.shiftr clk 16) 0xFF);
  cmd ← setitem rt cmd 8 (Z.land (Z.shiftr clk 8) 0xFF);
  cmd ← setitem rt cmd 9 (Z.land clk 0xFF);
  cmd ← setitem rt cmd 10 (flag raF);
  cmd ← setitem rt cmd 11 (flag snF);
  cmd ← setitem rt cmd 12 0x6B;
  Ok (take 13 cmd).

Definition Stop_Now (addr : Z) (snF : bool) : result (list Z) :=
  let cmd := bytearray 5 in
  cmd ← setitem rt cmd 0 addr;
  cmd ← setitem rt cmd 1 0xFE;
  cmd ← setitem rt cmd 2 0x98;
  cmd ← setitem rt cmd 3 (flag snF);
  cmd ← setitem rt cmd 4 0x6B;
  Ok cmd.

Definition Synchronous_motion (addr : Z) : result (list Z) :=
  let cmd := bytearray 4 in
  cmd ← setitem rt cmd 0 addr;
  cmd ← setitem rt cmd 1 0xFF;
  cmd ← setitem rt cmd 2 0x66;
  cmd ← setitem rt cmd 3 0x6B;
  Ok cmd.

Definition Origin_Set_O (addr : Z) (svF : bool) : result (list Z) :=
  let cmd := bytearray 5 in
  cmd ← setitem rt cmd 0 addr;
  cmd ← setitem rt cmd 1 0x93;
  cmd ← setitem rt cmd 2 0x88;
  cmd ← setitem rt cmd 3 (flag svF);
  cmd ← setitem rt cmd 4 0x6B;
  Ok cmd.

Definition Origin_Modify_Params (addr : Z) (svF : bool)
    (o_mode o_dir o_vel o_tm sl_vel sl_ma sl_ms : Z) (potF : bool)
  : result (list Z) :=
  let cmd := bytearray 20 in
  cmd ← setitem rt cmd 0 addr;
  cmd ← setitem rt cmd 1 0x4C;
  cmd ← setitem rt cmd 2 0xAE;
  cmd ← setitem rt cmd 3 (flag svF);
  cmd ← setitem rt cmd 4 o_mode;
  cmd ← setitem rt cmd 5 o_dir;
  cmd ← setitem rt cmd 6 (Z.land (Z.shiftr o_vel 8) 0xFF);
  cmd ← setitem rt cmd 7 (Z.land o_vel 0xFF);
  cmd ← setitem rt cmd 8 (Z.land (Z.shiftr o_tm 24) 0xFF);
  cmd ← setitem rt cmd 9 (Z.land (Z.shiftr o_tm 16) 0xFF);
  cmd ← setitem rt cmd 10 (Z.land (Z.shiftr o_tm 8) 0xFF);
  cmd ← setitem rt cmd 11 (Z.land o_tm 0xFF);
  cmd ← setitem rt cmd 12 (Z.land (Z.shiftr sl_vel 8) 0xFF);
  cmd ← setitem rt cmd 13 (Z.land sl_vel 0xFF);
  cmd ← setitem rt cmd 14 (Z.land (Z.shiftr sl_ma 8) 0xFF);
  cmd ← setitem rt cmd 15 (Z.land sl_ma 0xFF);
  cmd ← setitem rt cmd 16 (Z.land (Z.shiftr sl_ms 8) 0xFF);
  cmd ← setitem rt cmd 17 (Z.land sl_ms 0xFF);
  cmd ← setitem rt cmd 18 (flag potF);
  cmd ← setitem rt cmd 19 0x6B;
  Ok cmd.

Definition Origin_Trigger_Return (addr o_mode : Z) (snF : bool)
  : result (list Z) :=
  let cmd := bytearray 5 in
  cmd ← setitem rt cmd 0 addr;
  cmd ← setitem rt cmd 1 0x9A;
  cmd ← setitem rt cmd 2 o_mode;
  cmd ← setitem rt cmd 3 (flag snF);
  cmd ← setitem rt cmd 4 0x6B;
  Ok cmd.

Definition Origin_Interrupt (addr : Z) : result (list Z) :=
  let cmd := bytearray 4 in
  cmd ← setitem rt cmd 0 addr;
  cmd ← setitem rt cmd 1 0x9C;
  cmd ← setitem rt cmd 2 0x48;
  cmd ← setitem rt cmd 3 0x6B;
  Ok cmd.

End Encoder.


(** The thirteen encoders behind one type, to quantify over all of them. *)
Inductive command : Type :=
| CRead_Sys_Params (addr : Z) (s : string)
| CReset_CurPos_To_Zero (addr : Z)
| CReset_Clog_Pro (addr : Z)
| CModify_Ctrl_Mode (addr : Z) (svF : bool) (ctrl_mode : Z)
| CEn_Control (addr : Z) (state snF : bool)
| CVel_Control (addr dir vel acc : Z) (snF : bool)
| CPos_Control (addr dir vel acc clk : Z) (raF snF : bool)
| CStop_Now (addr : Z) (snF : bool)
| CSynchronous_motion (addr : Z)
| COrigin_Set_O (addr : Z) (svF : bool)
| COrigin_Modify_Params (addr : Z) (svF : bool)
    (o_mode o_dir o_vel o_tm sl_vel sl_ma sl_ms : Z) (potF : bool)
| COrigin_Trigger_Return (addr o_mode : Z) (snF : bool)
| COrigin_Interrupt (addr : Z).

Definition encode (rt : runtime) (c : command) : result (list Z) :=
  match c with
  | CRead_Sys_Params addr s => Read_Sys_Params rt addr s
  | CReset_CurPos_To_Zero addr => Reset_CurPos_To_Zero rt addr
  | CReset_Clog_Pro addr => Reset_Clog_Pro rt addr
  | CModify_Ctrl_Mode addr svF m => Modify_Ctrl_Mode rt addr svF m
  | CEn_Control addr st snF => En_Control rt addr st snF
  | CVel_Control addr dir vel acc snF => Vel_Control rt addr dir vel acc snF
  | CPos_Control addr dir vel acc clk raF snF =>
      Pos_Control rt addr dir vel acc clk raF snF
  | CStop_Now addr snF => Stop_Now rt addr snF
  | CSynchronous_motion addr => Synchronous_motion rt addr
  | COrigin_Set_O addr svF => Origin_Set_O rt addr svF
  | COrigin_Modify_Params addr svF m d v tm sv sa ss potF =>
      Origin_Modify_Params rt addr svF m d v tm sv sa ss potF
  | COrigin_Trigger_Return addr m snF => Origin_Trigger_Return rt addr m snF
  | COrigin_Interrupt addr => Origin_Interrupt rt addr
  end.

(** The integers a command stores without a mask: address, direction,
    acceleration and mode bytes.  Velocity, pulse count, timeout and the
    stall thresholds are masked by the encoder itself. *)
Definition unmasked_fields (c : command) : list Z :=
  match c with
  | CRead_Sys_Params addr _ | CReset_CurPos_To_Zero addr
  | CReset_Clog_Pro addr | CEn_Control addr _ _ | CStop_Now addr _
  | CSynchronous_motion addr | COrigin_Set_O addr _
  | COrigin_Interrupt addr => [addr]
  | CModify_Ctrl_Mode addr _ m | COrigin_Trigger_Return addr m _ => [addr; m]
  | CVel_Control addr dir _ acc _ | CPos_Control addr dir _ acc _ _ _ =>
      [addr; dir; acc]
  | COrigin_Modify_Params addr _ m d _ _ _ _ _ _ => [addr; m; d]
  end.




(** Big-endian reassembly of a byte field. *)
Definition be_decode (bs : list Z) : Z :=
  fold_left (fun acc b => acc * 256 + b) bs 0.

(** [frame[a:b]] *)
Definition slice {A} (a b : nat) (l : list A) : list A :=
  drop a (take b l).

(** ** Python strings *)

Definition pystr : Type := list ascii.

(** A string literal. *)
Definition str (s : string) : pystr := list_ascii_of_string s.

Definition hex_digit (d : Z) : ascii :=
  match d with
  | 0 => "0" | 1 => "1" | 2 => "2" | 3 => "3" | 4 => "4" | 5 => "5"
  | 6 => "6" | 7 => "7" | 8 => "8" | 9 => "9" | 10 => "a" | 11 => "b"
  | 12 => "c" | 13 => "d" | 14 => "e" | 15 => "f" | _ => "?"
  end%char.

(** ["{:02x}".format(b)] for an element [b] of a bytearray. *)
Definition format_02x (b : Z) : pystr :=
  [hex_digit (b / 16); hex_digit (b mod 16)].

(** [sep.join(l)] *)
Fixpoint str_join (sep : pystr) (l : list pystr) : pystr :=
  match l with
  | [] => []
  | x :: l' =>
      match l' with
      | [] => x
      | _ :: _ => x ++ sep ++ str_join sep l'
      end
  end.

Definition in_chars (chars : pystr) (c : ascii) : bool :=
  existsb (Ascii.eqb c) chars.

(** [s.lstrip(chars)]: [chars] is a set of characters, not a prefix. *)
Fixpoint str_lstrip (chars s : pystr) : pystr :=
  match s with
  | [] => []
  | c :: s' => if in_chars chars c then str_lstrip chars s' else s
  end.

Definition str_rstrip (chars s : pystr) : pystr :=
  rev (str_lstrip chars (rev s)).

(** [s.strip(chars)] *)
Definition str_strip (chars s : pystr) : pystr :=
  str_rstrip chars (str_lstrip chars s).

(** [s.replace(" ", "")] *)
Definition remove_spaces (s : pystr) : pystr :=
  List.filter (fun c => negb (Ascii.eqb c " ")) s.

(** The white space [str.split()] separates on. *)
Definition is_whitespace (c : ascii) : bool :=
  in_chars [" "; "009"; "010"; "011"; "012"; "013"]%char c.

(** [s.split()]: the maximal runs of non-blank characters. *)
Fixpoint str_split_go (cur s : pystr) : list pystr :=
  match s with
  | [] => match cur with [] => [] | _ :: _ => [cur] end
  | c :: s' =>
      if is_whitespace c
      then match cur with
           | [] => str_split_go [] s'
           | _ :: _ => cur :: str_split_go [] s'
           end
      else str_split_go (cur ++ [c]) s'
  end.

Definition str_split (s : pystr) : list pystr := str_split_go [] s.

(** The value of a hexadecimal digit, in either case. *)
Definition hex_val (c : ascii) : option Z :=
  let n := Z.of_N (N_of_ascii c) in
  if (48 <=? n) && (n <=? 57) then Some (n - 48)
  else if (97 <=? n) && (n <=? 102) then Some (n - 87)
  else if (65 <=? n) && (n <=? 70) then Some (n - 55)
  else None.

Fixpoint hex_value (acc : Z) (s : pystr) : result Z :=
  match s with
  | [] => Ok acc
  | c :: s' =>
      match hex_val c with
      | Some d => hex_value (acc * 16 + d) s'
      | None => Raise ValueError
      end
  end.

(** [int(s, 16)] on a token; the tokens here are runs of hex digits. *)
Definition int16 (s : pystr) : result Z :=
  match s with
  | [] => Raise ValueError
  | _ :: _ => hex_value 0 s
  end.

(** [bytes.fromhex(s)]: two digits a byte; an odd digit left over or a
    character that is no hex digit raises [ValueError]. *)
Fixpoint fromhex (s : pystr) : result (list Z) :=
  match s with
  | [] => Ok []
  | [_] => Raise ValueError
  | h :: l :: s' =>
      match hex_val h, hex_val l with
      | Some a, Some b => bs ← fromhex s'; Ok (a * 16 + b :: bs)
      | _, _ => Raise ValueError
      end
  end.

(** [struct.unpack(">I", b)[0]] *)
Definition unpack_uint32_be (b : list Z) : result Z :=
  if (length b =? 4)%nat then Ok (be_decode b) else Raise StructError.

(** [l[i]] on a list *)
Definition getitem {A} (l : list A) (i : nat) : result A :=
  match l !! i with
  | Some x => Ok x
  | None => Raise IndexError
  end.

(** ** The serial port and the clock

    The port holds the bytes on the wire that were not read yet, each with
    the millisecond at which it arrives, in wire order, and the log of the
    bytes written to it.  [uart.any()] is true when the next byte has
    arrived; [uart.read(1)] takes it. *)

Record uart : Type := { rx_wire : list (Z * Z); tx_log : list Z }.

Definition uart_any (u : uart) (now : Z) : bool :=
  match rx_wire u with
  | (arrival, _) :: _ => arrival <=? now
  | [] => false
  end.

Definition uart_read1 (u : uart) : option (Z * uart) :=
  match rx_wire u with
  | (_, b) :: w => Some (b, {| rx_wire := w; tx_log := tx_log u |})
  | [] => None
  end.

(** [time.ticks_diff(a, b)], on a clock that does not wrap during the call. *)
Definition ticks_diff (a b : Z) : Z := a - b.

(** ** Frame receiver *)

(** Lines 206-210: the hexadecimal rendering of the received bytes, its
    normalisation, and the byte count derived from the digits left. *)
Definition hex_render (bs : list Z) : pystr :=
  str_join (str " ") (map format_02x bs).

Definition normalise (hex_data : pystr) : pystr :=
  let hex_data := str_strip (str "00 ") hex_data in
  match hex_data with
  | c :: _ => if negb (Ascii.eqb c "0") then str "0" ++ hex_data else hex_data
  | [] => hex_data
  end.

Definition hex_result (bs : list Z) : pystr * nat :=
  let hex_data := normalise (hex_render bs) in
  (hex_data, (length (remove_spaces hex_data) / 2)%nat).

(** The variables of [Receive_Data], and the number [pass] of passes
    through the loop made so far. *)
Record rx_state : Type := {
  pass : nat;
  rx_i : nat;
  rxCmd : list Z;
  lTime : Z;
  port : uart
}.

Section Receiver.
(** [ticks k] is the millisecond clock during pass [k] of the loop, as
    seen by [uart.any()] and by [time.ticks_ms()]; [ticks 0] is the clock
    when the function is entered. *)
Variable ticks : nat -> Z.

(** One pass through [while True]: the next state, or the state in which
    the [return] is reached. *)
Definition rx_pass (s : rx_state) : rx_state + rx_state :=
  let k := S (pass s) in
  if uart_any (port s) (ticks k) then
    if (rx_i s <? 128)%nat then
      match uart_read1 (port s) with
      | Some (b, u) =>
          inl {| pass := k; rx_i := rx_i s + 1;
                 rxCmd := <[rx_i s := b]> (rxCmd s);
                 lTime := ticks k; port := u |}
      | None => inl s
      end
    else
      inl {| pass := k; rx_i := rx_i s; rxCmd := rxCmd s;
             lTime := lTime s; port := port s |}
  else
    let cTime := ticks k in
    if ticks_diff cTime (lTime s) >? 100 then inr s
    else
      inl {| pass := k; rx_i := rx_i s; rxCmd := rxCmd s;
             lTime := lTime s; port := port s |}.

Fixpoint rx_loop (fuel : nat) (s : rx_state) : option rx_state :=
  match fuel with
  | O => None
  | S fuel' =>
      match rx_pass s with
      | inl s' => rx_loop fuel' s'
      | inr s' => Some s'
      end
  end.

(** The state after [n] passes, or the state of the [return] if one of
    them reaches it. *)
Fixpoint rx_passes (n : nat) (s : rx_state) : rx_state + rx_state :=
  match n with
  | O => inl s
  | S n' =>
      match rx_pass s with
      | inl s' => rx_passes n' s'
      | inr s' => inr s'
      end
  end.

(** [rx_steps s s']: the loop goes from [s] to [s'] without returning. *)
Inductive rx_steps : rx_state -> rx_state -> Prop :=
| rx_steps_refl s : rx_steps s s
| rx_steps_pass s s1 s2 :
    rx_pass s = inl s1 -> rx_steps s1 s2 -> rx_steps s s2.

Definition rx_init (u : uart) : rx_state :=
  {| pass := 0; rx_i := 0; rxCmd := bytearray 128;
     lTime := ticks 0; port := u |}.

(** The bytes [rxCmd[:i]] held when the loop is left. *)
Definition rx_frame (s : rx_state) : list Z := take (rx_i s) (rxCmd s).

(** [Receive_Data(uart)]: the returned pair and the port afterwards;
    [None] when the loop is still running after [fuel] passes. *)
Definition Receive_Data (fuel : nat) (u : uart)
  : option (pystr * nat * uart) :=
  match rx_loop fuel (rx_init u) with
  | Some s => Some (hex_result (rx_frame s), port s)
  | None => None
  end.

End Receiver.

(** Bytes that follow one another on the wire with no silence of more
    than 100 ms: each arrives at or after [prev], the arrival before it,
    and at most 100 ms later. *)
Fixpoint paced (prev : Z) (w : list (Z * Z)) : Prop :=
  match w with
  | [] => True
  | (a, _) :: w' => prev <= a <= prev + 100 /\ paced a w'
  end.

(** The arrival time of the last byte of [w], [prev] if there is none. *)
Fixpoint last_arrival (prev : Z) (w : list (Z * Z)) : Z :=
  match w with
  | [] => prev
  | (a, _) :: w' => last_arrival a w'
  end.

(** What precedes the digits of the last byte in a rendering. *)
Definition render_lead (bs : list Z) : pystr :=
  match bs with
  | [] => []
  | _ :: _ => hex_render bs ++ str " "
  end.

(** The number of hex digits of a string. *)
Definition digits (s : pystr) : nat := length (remove_spaces s).

(** The ['0'] the normalisation puts in front of a first byte of two
    significant digits. *)
Definition pad (b0 : Z) : pystr := if b0 <? 16 then [] else str "0".

(** ** Position decoder *)

(** A float that is a rational: [float(pos) * 360.0 / 65536.0] is exact in
    binary64 for every 32-bit [pos] (the product is below 2^53 and the
    divisor is a power of two). *)
Definition angle_of (pos : Z) : Q := Qred (inject_Z pos * 360 / 65536).

(** The condition of line 222; [and] evaluates its operands left to right
    and stops at the first false one. *)
Definition is_position_reply (data : pystr) (count : nat)
  (data_hex : list pystr) : result bool :=
  if (0 <? count)%nat then
    match data with
    | [] => Ok false
    | _ :: _ =>
        t0 ← getitem data_hex 0;
        a ← int16 t0;
        if a =? 0x01 then
          t1 ← getitem data_hex 1;
          f ← int16 t1;
          Ok (f =? 0x36)
        else Ok false
    end
  else Ok false.

(** Lines 214-230: the value of [Motor_Cur_Pos] when [print] is reached. *)
Definition decode_position (data : pystr) (count : nat) : result Q :=
  let Motor_Cur_Pos := 0%Q in
  let data_hex := str_split data in
  c ← is_position_reply data count data_hex;
  if (c : bool) then
    b ← fromhex (concat (slice 3 7 data_hex));
    pos ← unpack_uint32_be b;
    let Motor_Cur_Pos := angle_of pos in
    t2 ← getitem data_hex 2;
    sign ← int16 t2;
    Ok (if sign =? 0 then Motor_Cur_Pos else Qopp Motor_Cur_Pos)
  else Ok Motor_Cur_Pos.

(** What a call returns. *)
Inductive pyval : Type :=
| PyNone
| PyFloat (x : Q).

(** The observable outcome of [Real_time_location]: the value returned or
    the exception raised, the floats handed to [print], and the port. *)
Record outcome : Type := {
  returned : result pyval;
  printed : list Q;
  port_after : uart
}.

(** [Real_time_location(uart)].  The two [time.sleep_ms(1)] only let the
    clock run; [ticks] is the clock of the [Receive_Data] call. *)
Definition Real_time_location (rt : runtime) (ticks : nat -> Z)
  (fuel : nat) (u : uart) : option outcome :=
  match Read_Sys_Params rt 1 "S_CPOS" with
  | Raise e => Some {| returned := Raise e; printed := []; port_after := u |}
  | Ok _ =>
      match Receive_Data ticks fuel u with
      | None => None
      | Some (data, count, u') =>
          match decode_position data count with
          | Raise e =>
              Some {| returned := Raise e; printed := []; port_after := u' |}
          | Ok Motor_Cur_Pos =>
              Some {| returned := Ok PyNone; printed := [Motor_Cur_Pos];
                      port_after := u' |}
          end
      end
  end.

(** The outcome of a call that prints [x] and ends normally. *)
Definition reading (x : Q) (u : uart) : outcome :=
  {| returned := Ok PyNone; printed := [x]; port_after := u |}.

(** A clock read once a millisecond, and a burst of bytes one per
    millisecond from time [t]. *)
Definition every_ms (k : nat) : Z := Z.of_nat k.

Fixpoint burst (t : Z) (bs : list Z) : list (Z * Z) :=
  match bs with
  | [] => []
  | b :: bs' => (t, b) :: burst (t + 1) bs'
  end.

Definition line (bs : list Z) : uart :=
  {| rx_wire := burst 0 bs; tx_log := [] |}.

(** The integers a command splits over two bytes, and over four. *)
Definition fields16 (c : command) : list Z :=
  match c with
  | CVel_Control _ _ vel _ _ | CPos_Control _ _ vel _ _ _ _ => [vel]
  | COrigin_Modify_Params _ _ _ _ o_vel _ sl_vel sl_ma sl_ms _ =>
      [o_vel; sl_vel; sl_ma; sl_ms]
  | _ => []
  end.

Definition fields32 (c : command) : list Z :=
  match c with
  | CPos_Control _ _ _ _ clk _ _ => [clk]
  | COrigin_Modify_Params _ _ _ _ _ o_tm _ _ _ _ => [o_tm]
  | _ => []
  end.

(** A command whose every number fits the field that carries it, and
    whose parameter name, for a read request, is one of the table. *)
Definition in_range (c : command) : Prop :=
  Forall is_byte (unmasked_fields c) /\
  Forall (fun v => 0 <= v < 2 ^ 16) (fields16 c) /\
  Forall (fun v => 0 <= v < 2 ^ 32) (fields32 c) /\
  match c with
  | CRead_Sys_Params _ s => is_Some (func_codes !! s)
  | _ => True
  end.

(** The bytes of the frame of a command, written out in wire order. *)
Definition frame_of (c : command) : list Z :=
  match c with
  | CRead_Sys_Params addr s =>
      match func_codes !! s with
      | Some code => [addr; code; 0x6B]
      | None => [addr; 0x6B]
      end
  | CReset_CurPos_To_Zero addr => [addr; 0x0A; 0x6D; 0x6B]
  | CReset_Clog_Pro addr => [addr; 0x0E; 0x52; 0x6B]
  | CModify_Ctrl_Mode addr svF m => [addr; 0x46; 0x69; flag svF; m; 0x6B]
  | CEn_Control addr st snF => [addr; 0xF3; 0xAB; flag st; flag snF; 0x6B]
  | CVel_Control addr dir vel acc snF =>
      [addr; 0xF6; dir; Z.land (Z.shiftr vel 8) 0xFF; Z.land vel 0xFF;
       acc; flag snF; 0x6B]
  | CPos_Control addr dir vel acc clk raF snF =>
      [addr; 0xFD; dir; Z.land (Z.shiftr vel 8) 0xFF; Z.land vel 0xFF; acc;
       Z.land (Z.shiftr clk 24) 0xFF; Z.land (Z.shiftr clk 16) 0xFF;
       Z.land (Z.shiftr clk 8) 0xFF; Z.land clk 0xFF;
       flag raF; flag snF; 0x6B]
  | CStop_Now addr snF => [addr; 0xFE; 0x98; flag snF; 0x6B]
  | CSynchronous_motion addr => [addr; 0xFF; 0x66; 0x6B]
  | COrigin_Set_O addr svF => [addr; 0x93; 0x88; flag svF; 0x6B]
  | COrigin_Modify_Params addr svF m d o_vel o_tm sl_vel sl_ma sl_ms potF =>
      [addr; 0x4C; 0xAE; flag svF; m; d;
       Z.land (Z.shiftr o_vel 8) 0xFF; Z.land o_vel 0xFF;
       Z.land (Z.shiftr o_tm 24) 0xFF; Z.land (Z.shiftr o_tm 16) 0xFF;
       Z.land (Z.shiftr o_tm 8) 0xFF; Z.land o_tm 0xFF;
       Z.land (Z.shiftr sl_vel 8) 0xFF; Z.land sl_vel 0xFF;
       Z.land (Z.shiftr sl_ma 8) 0xFF; Z.land sl_ma 0xFF;
       Z.land (Z.shiftr sl_ms 8) 0xFF; Z.land sl_ms 0xFF;
       flag potF; 0x6B]
  | COrigin_Trigger_Return addr m snF => [addr; 0x9A; m; flag snF; 0x6B]
  | COrigin_Interrupt addr => [addr; 0x9C; 0x48; 0x6B]
  end.

(** The next byte on the wire, if there is one, arrives after [t]. *)
Definition next_after (t : Z) (w : list (Z * Z)) : Prop :=
  match w with
  | [] => True
  | (a, _) :: _ => t < a
  end.


(** A command with every number reduced to the field that carries it:
    one-byte fields modulo 2^8, two-byte fields modulo 2^16, four-byte
    fields modulo 2^32. *)
Definition wrapped (c : command) : command :=
  match c with
  | CRead_Sys_Params addr s => CRead_Sys_Params (addr mod 256) s
  | CReset_CurPos_To_Zero addr => CReset_CurPos_To_Zero (addr mod 256)
  | CReset_Clog_Pro addr => CReset_Clog_Pro (addr mod 256)
  | CModify_Ctrl_Mode addr svF m =>
      CModify_Ctrl_Mode (addr mod 256) svF (m mod 256)
  | CEn_Control addr st snF => CEn_Control (addr mod 256) st snF
  | CVel_Control addr dir vel acc snF =>
      CVel_Control (addr mod 256) (dir mod 256) (vel mod 2 ^ 16)
        (acc mod 256) snF
  | CPos_Control addr dir vel acc clk raF snF =>
      CPos_Control (addr mod 256) (dir mod 256) (vel mod 2 ^ 16)
        (acc mod 256) (clk mod 2 ^ 32) raF snF
  | CStop_Now addr snF => CStop_Now (addr mod 256) snF
  | CSynchronous_motion addr => CSynchronous_motion (addr mod 256)
  | COrigin_Set_O addr svF => COrigin_Set_O (addr mod 256) svF
  | COrigin_Modify_Params addr svF m d o_vel o_tm sl_vel sl_ma sl_ms potF =>
      COrigin_Modify_Params (addr mod 256) svF (m mod 256) (d mod 256)
        (o_vel mod 2 ^ 16) (o_tm mod 2 ^ 32) (sl_vel mod 2 ^ 16)
        (sl_ma mod 2 ^ 16) (sl_ms mod 2 ^ 16) potF
  | COrigin_Trigger_Return addr m snF =>
      COrigin_Trigger_Return (addr mod 256) (m mod 256) snF
  | COrigin_Interrupt addr => COrigin_Interrupt (addr mod 256)
  end.

(** * Properties *)

(** ** Byte stores *)

Lemma storable_byte rt v : is_byte v -> storable rt v.
Proof. destruct rt; simpl; auto. Qed.

Lemma stored_byte rt v : is_byte v -> stored rt v = v.
Proof.
  unfold is_byte. destruct rt; simpl; intros; [apply Z.mod_small|]; lia.
Qed.

Lemma stored_is_byte rt v : storable rt v -> is_byte (stored rt v).
Proof.
  destruct rt; simpl; unfold is_byte; intros; [apply Z.mod_pos_bound|]; lia.
Qed.

Lemma byte_value_stored rt v :
  storable rt v -> byte_value rt v = Ok (stored rt v).
Proof.
  destruct rt; simpl; [reflexivity|].
  unfold is_byte, is_byteb. intros [H0 H1].
  apply Z.leb_le in H0. apply Z.ltb_lt in H1. now rewrite H0, H1.
Qed.

Lemma setitem_stored rt cmd i v :
  (i <? length cmd)%nat = true -> storable rt v ->
  setitem rt cmd i v = Ok (<[i:=stored rt v]> cmd).
Proof.
  intros Hi Hv. unfold setitem. rewrite Hi, (byte_value_stored _ _ Hv).
  reflexivity.
Qed.

Lemma land_255 x : Z.land x 0xFF = x mod 256.
Proof. change 0xFF with (Z.ones 8). rewrite Z.land_ones by lia. reflexivity. Qed.

Lemma is_byte_land x : is_byte (Z.land x 0xFF).
Proof. rewrite land_255. unfold is_byte. apply Z.mod_pos_bound. lia. Qed.

Lemma is_byte_flag f : is_byte (flag f).
Proof. unfold is_byte. destruct f; simpl; lia. Qed.

Lemma func_codes_byte s code : func_codes !! s = Some code -> is_byte code.
Proof.
  intros H. apply elem_of_list_to_map_2 in H.
  repeat (apply elem_of_cons in H as [H|H];
          [injection H as _ ->; unfold is_byte; lia|]).
  now apply elem_of_nil in H.
Qed.

Lemma setitem_byte rt cmd i v :
  (i <? length cmd)%nat = true -> is_byte v ->
  setitem rt cmd i v = Ok (<[i:=v]> cmd).
Proof.
  intros Hi Hv. rewrite setitem_stored by auto using storable_byte.
  now rewrite stored_byte.
Qed.

Ltac solve_byte :=
  first [ apply is_byte_land | apply is_byte_flag
        | eapply func_codes_byte; eassumption
        | unfold is_byte; lia ].

(** Runs the stores of an encoder: a constant, flag or masked value is
    stored as it is, another field as the runtime stores it. *)
Ltac run_stores :=
  repeat first
    [ rewrite setitem_byte; [ cbn [mbind result_bind] | reflexivity | solve_byte ]
    | rewrite setitem_stored;
      [ cbn [mbind result_bind] | reflexivity | first [assumption | exact I] ] ].

Ltac bytes_frame :=
  repeat (apply Forall_cons; split;
          [first [solve_byte | apply stored_is_byte; first [assumption | exact I]]|]);
  apply Forall_nil_2.

Ltac unfold_encoders :=
  unfold Reset_CurPos_To_Zero, Reset_Clog_Pro, Modify_Ctrl_Mode, En_Control,
    Vel_Control, Pos_Control, Stop_Now, Synchronous_motion, Origin_Set_O,
    Origin_Modify_Params, Origin_Trigger_Return, Origin_Interrupt.

Lemma Vel_Control_frame rt addr dir vel acc snF :
  storable rt addr -> storable rt dir -> storable rt acc ->
  Vel_Control rt addr dir vel acc snF =
  Ok [stored rt addr; 0xF6; stored rt dir;
      Z.land (Z.shiftr vel 8) 0xFF; Z.land vel 0xFF;
      stored rt acc; flag snF; 0x6B].
Proof. intros Ha Hd Hc. unfold Vel_Control. run_stores. reflexivity. Qed.

Lemma Pos_Control_frame rt addr dir vel acc clk raF snF :
  storable rt addr -> storable rt dir -> storable rt acc ->
  Pos_Control rt addr dir vel acc clk raF snF =
  Ok [stored rt addr; 0xFD; stored rt dir;
      Z.land (Z.shiftr vel 8) 0xFF; Z.land vel 0xFF; stored rt acc;
      Z.land (Z.shiftr clk 24) 0xFF; Z.land (Z.shiftr clk 16) 0xFF;
      Z.land (Z.shiftr clk 8) 0xFF; Z.land clk 0xFF;
      flag raF; flag snF; 0x6B].
Proof. intros Ha Hd Hc. unfold Pos_Control. run_stores. reflexivity. Qed.

Lemma Origin_Modify_Params_frame rt addr svF o_mode o_dir o_vel o_tm
    sl_vel sl_ma sl_ms potF :
  storable rt addr -> storable rt o_mode -> storable rt o_dir ->
  Origin_Modify_Params rt addr svF o_mode o_dir o_vel o_tm
    sl_vel sl_ma sl_ms potF =
  Ok [stored rt addr; 0x4C; 0xAE; flag svF; stored rt o_mode;
      stored rt o_dir;
      Z.land (Z.shiftr o_vel 8) 0xFF; Z.land o_vel 0xFF;
      Z.land (Z.shiftr o_tm 24) 0xFF; Z.land (Z.shiftr o_tm 16) 0xFF;
      Z.land (Z.shiftr o_tm 8) 0xFF; Z.land o_tm 0xFF;
      Z.land (Z.shiftr sl_vel 8) 0xFF; Z.land sl_vel 0xFF;
      Z.land (Z.shiftr sl_ma 8) 0xFF; Z.land sl_ma 0xFF;
      Z.land (Z.shiftr sl_ms 8) 0xFF; Z.land sl_ms 0xFF;
      flag potF; 0x6B].
Proof.
  intros Ha Hm Hd. unfold Origin_Modify_Params. run_stores. reflexivity.
Qed.

Lemma Read_Sys_Params_known rt addr s code :
  storable rt addr -> func_codes !! s = Some code ->
  Read_Sys_Params rt addr s = Ok [stored rt addr; code; 0x6B].
Proof.
  intros Ha Hs. unfold Read_Sys_Params. run_stores. rewrite Hs.
  run_stores. reflexivity.
Qed.

Lemma Read_Sys_Params_unknown rt addr s :
  storable rt addr -> func_codes !! s = None ->
  Read_Sys_Params rt addr s = Ok [stored rt addr; 0x6B].
Proof.
  intros Ha Hs. unfold Read_Sys_Params. run_stores. rewrite Hs.
  cbn [mbind result_bind]. run_stores. reflexivity.
Qed.

(** Every encoder returns a frame when its unmasked fields can be stored;
    the frame is given by [encode] itself. *)
Lemma encode_returns rt c :
  Forall (storable rt) (unmasked_fields c) ->
  exists frame, encode rt c = Ok frame /\ Forall is_byte frame.
Proof.
  intros Hf. destruct c; simpl in Hf; decompose_Forall_hyps; simpl.
  1: { destruct (func_codes !! s) as [code|] eqn:Hs.
       - rewrite (Read_Sys_Params_known _ _ _ code) by assumption.
         eexists; split; [reflexivity|]. bytes_frame.
       - rewrite Read_Sys_Params_unknown by assumption.
         eexists; split; [reflexivity|]. bytes_frame. }
  all: unfold_encoders; run_stores; (eexists; split; [reflexivity|]);
       bytes_frame.
Qed.

(** ** Big-endian fields *)

Lemma shiftr_land_byte v n :
  0 <= n -> Z.land (Z.shiftr v n) 0xFF = (v / 2 ^ n) mod 256.
Proof. intros Hn. now rewrite land_255, Z.shiftr_div_pow2. Qed.

Lemma be_decode_16 v :
  be_decode [Z.land (Z.shiftr v 8) 0xFF; Z.land v 0xFF] = v mod 2 ^ 16.
Proof.
  rewrite shiftr_land_byte, land_255 by lia. unfold be_decode; simpl fold_left.
  change (2 ^ 16) with (256 * 256). change (2 ^ 8) with 256.
  rewrite (Z.rem_mul_r v 256 256) by lia. ring.
Qed.

Lemma be_decode_32 v :
  be_decode [Z.land (Z.shiftr v 24) 0xFF; Z.land (Z.shiftr v 16) 0xFF;
             Z.land (Z.shiftr v 8) 0xFF; Z.land v 0xFF] = v mod 2 ^ 32.
Proof.
  rewrite !shiftr_land_byte, land_255 by lia.
  unfold be_decode; simpl fold_left.
  change (2 ^ 32) with (256 * (256 * (256 * 256))).
  change (2 ^ 24) with (256 * 256 * 256).
  change (2 ^ 16) with (256 * 256). change (2 ^ 8) with 256.
  rewrite (Z.rem_mul_r v 256 (256 * (256 * 256))) by lia.
  rewrite (Z.rem_mul_r (v / 256) 256 (256 * 256)) by lia.
  rewrite (Z.rem_mul_r (v / 256 / 256) 256 256) by lia.
  rewrite !Z.div_div by lia. ring.
Qed.

Lemma low16_high_byte v : (v / 256) mod 256 = v mod 2 ^ 16 / 256.
Proof.
  change (2 ^ 16) with (256 * 256). rewrite (Z.rem_mul_r v 256 256) by lia.
  rewrite (Z.mul_comm 256 (v / 256 mod 256)), Z.div_add by lia.
  rewrite (Z.div_small (v mod 256)) by (apply Z.mod_pos_bound; lia).
  reflexivity.
Qed.

Lemma low16_low_byte v : v mod 256 = v mod 2 ^ 16 mod 256.
Proof.
  change (2 ^ 16) with (256 * 256). rewrite (Z.rem_mul_r v 256 256) by lia.
  rewrite (Z.mul_comm 256 (v / 256 mod 256)), Z.mod_add by lia.
  now rewrite Z.mod_mod by lia.
Qed.

(** ** Command encoder: the claims *)

(** C8.  Encoding the position-control command of scenario 2 (address 1,
    direction 0, velocity 300, acceleration 5, 3200 pulses, relative, not
    synchronised) returns exactly the thirteen bytes of the scenario, on
    either runtime. *)
Theorem Pos_Control_scenario_2 rt :
  Pos_Control rt 1 0 300 5 3200 true false =
  Ok [0x01; 0xFD; 0x00; 0x01; 0x2C; 0x05; 0x00; 0x00; 0x0C; 0x80; 0x01;
      0x00; 0x6B].
Proof. destruct rt; reflexivity. Qed.



(** A read request for a name that is not in the table has no function
    code: two bytes, not three. *)
Remark Read_Sys_Params_unknown_name rt :
  Read_Sys_Params rt 1 "S_TEMP" = Ok [0x01; 0x6B].
Proof. destruct rt; vm_compute; reflexivity. Qed.

(** The same stores under CPython: a direction of 256 is rejected. *)
Remark Vel_Control_cpython_rejects :
  Vel_Control CPython 1 256 200 10 false = Raise ValueError.
Proof. reflexivity. Qed.

(** C7.  Reassembling big-endian the two velocity bytes of an encoded
    [Vel_Control] or [Pos_Control] frame gives the velocity modulo 2^16;
    the four pulse-count bytes of a [Pos_Control] frame and the four
    timeout bytes of an [Origin_Modify_Params] frame give the input modulo
    2^32.  The multi-byte inputs are arbitrary integers. *)
Theorem multibyte_fields_roundtrip rt addr dir acc o_mode o_dir
    (vel clk o_vel o_tm sl_vel sl_ma sl_ms : Z) (snF raF svF potF : bool) :
  storable rt addr -> storable rt dir -> storable rt acc ->
  storable rt o_mode -> storable rt o_dir ->
  (exists f, Vel_Control rt addr dir vel acc snF = Ok f /\
             be_decode (slice 3 5 f) = vel mod 2 ^ 16) /\
  (exists f, Pos_Control rt addr dir vel acc clk raF snF = Ok f /\
             be_decode (slice 3 5 f) = vel mod 2 ^ 16 /\
             be_decode (slice 6 10 f) = clk mod 2 ^ 32) /\
  (exists f, Origin_Modify_Params rt addr svF o_mode o_dir o_vel o_tm
               sl_vel sl_ma sl_ms potF = Ok f /\
             be_decode (slice 6 8 f) = o_vel mod 2 ^ 16 /\
             be_decode (slice 8 12 f) = o_tm mod 2 ^ 32).
Proof.
  intros Ha Hd Hc Hm Ho. repeat split.
  - rewrite Vel_Control_frame by assumption.
    eexists; split; [reflexivity|]. apply be_decode_16.
  - rewrite Pos_Control_frame by assumption.
    eexists; split; [reflexivity|]. split; [apply be_decode_16|apply be_decode_32].
  - rewrite Origin_Modify_Params_frame by assumption.
    eexists; split; [reflexivity|]. split; [apply be_decode_16|apply be_decode_32].
Qed.

Lemma multibyte_fields_roundtrip_witness :
  (exists f, Vel_Control CPython 1 0 70000 10 false = Ok f /\
             be_decode (slice 3 5 f) = 70000 mod 2 ^ 16) /\
  (exists f, Pos_Control CPython 1 0 70000 10 (2 ^ 32 + 3200) true false
               = Ok f /\
             be_decode (slice 3 5 f) = 70000 mod 2 ^ 16 /\
             be_decode (slice 6 10 f) = (2 ^ 32 + 3200) mod 2 ^ 32) /\
  (exists f, Origin_Modify_Params CPython 1 true 0 1 30 (-1) 300 800 60
               false = Ok f /\
             be_decode (slice 6 8 f) = 30 mod 2 ^ 16 /\
             be_decode (slice 8 12 f) = (-1) mod 2 ^ 32).
Proof.
  apply (multibyte_fields_roundtrip CPython 1 0 10 0 1);
    unfold storable, is_byte; lia.
Defined.

(** ** Hexadecimal digits *)

Lemma nibble_enum d :
  0 <= d < 16 ->
  d = 0 \/ d = 1 \/ d = 2 \/ d = 3 \/ d = 4 \/ d = 5 \/ d = 6 \/ d = 7 \/
  d = 8 \/ d = 9 \/ d = 10 \/ d = 11 \/ d = 12 \/ d = 13 \/ d = 14 \/ d = 15.
Proof. lia. Qed.

Ltac nibble_cases H :=
  apply nibble_enum in H;
  repeat (destruct H as [H|H]); subst.

Lemma byte_high_nibble b : is_byte b -> 0 <= b / 16 < 16.
Proof.
  unfold is_byte. intros H. split.
  - apply Z.div_pos; lia.
  - apply Z.div_lt_upper_bound; lia.
Qed.

Lemma byte_low_nibble b : 0 <= b mod 16 < 16.
Proof. apply Z.mod_pos_bound. lia. Qed.

Lemma hex_val_digit d : 0 <= d < 16 -> hex_val (hex_digit d) = Some d.
Proof. intros H. nibble_cases H; reflexivity. Qed.

Lemma hex_digit_not_blank d : is_whitespace (hex_digit d) = false.
Proof.
  destruct (Z_lt_le_dec d 0) as [Hn|Hp].
  - destruct d; try lia. reflexivity.
  - destruct (Z_lt_le_dec d 16) as [Hlt|Hge].
    + assert (H : 0 <= d < 16) by lia. nibble_cases H; reflexivity.
    + assert (Hd : hex_digit d = "?"%char).
      { destruct d as [|p|p]; try lia.
        do 4 (destruct p as [p|p|]; try lia; try reflexivity). }
      rewrite Hd. reflexivity.
Qed.

Lemma hex_digit_not_space d : hex_digit d <> " "%char.
Proof.
  intros H. pose proof (hex_digit_not_blank d) as Hb.
  rewrite H in Hb. discriminate.
Qed.

(** Of the sixteen digits, [strip("00 ")] removes only ["0"]. *)
Lemma hex_digit_stripped d :
  0 <= d < 16 -> in_chars (str "00 ") (hex_digit d) = (d =? 0).
Proof. intros H. nibble_cases H; reflexivity. Qed.

Lemma in_strip_chars c :
  in_chars (str "00 ") c = true -> c = "0"%char \/ c = " "%char.
Proof.
  unfold in_chars; simpl. rewrite !orb_true_iff.
  intros [H|[H|[H|H]]]; try discriminate;
    apply Ascii.eqb_eq in H; auto.
Qed.

(** ** Stripping *)

Lemma lstrip_split chars s :
  exists dropped,
    s = dropped ++ str_lstrip chars s /\
    Forall (fun c => in_chars chars c = true) dropped.
Proof.
  induction s as [|c s IH]; simpl.
  - exists []; split; [reflexivity|constructor].
  - destruct (in_chars chars c) eqn:Hc.
    + destruct IH as (d & Hd & Hall). exists (c :: d). split.
      * simpl. congruence.
      * constructor; assumption.
    + exists []; split; [reflexivity|constructor].
Qed.

Lemma lstrip_app_kept chars pre h post :
  in_chars chars h = false ->
  str_lstrip chars (pre ++ h :: post) = str_lstrip chars pre ++ h :: post.
Proof.
  intros Hh. induction pre as [|c pre IH]; simpl.
  - now rewrite Hh.
  - destruct (in_chars chars c); [exact IH|reflexivity].
Qed.

Lemma lstrip_head chars s c t :
  str_lstrip chars s = c :: t -> in_chars chars c = false.
Proof.
  induction s as [|a s IH]; simpl; [discriminate|].
  destruct (in_chars chars a) eqn:Ha; [exact IH|].
  intros H; injection H as -> _. exact Ha.
Qed.

Lemma lstrip_kept chars c s :
  in_chars chars c = false -> str_lstrip chars (c :: s) = c :: s.
Proof. intros H; simpl; now rewrite H. Qed.

Lemma rstrip_snoc_kept chars s c :
  in_chars chars c = false -> str_rstrip chars (s ++ [c]) = s ++ [c].
Proof.
  intros H. unfold str_rstrip. rewrite rev_app_distr; simpl.
  rewrite H. simpl. now rewrite rev_involutive.
Qed.

Lemma rstrip_snoc_dropped chars s c :
  in_chars chars c = true ->
  str_rstrip chars (s ++ [c]) = str_rstrip chars s.
Proof.
  intros H. unfold str_rstrip. rewrite rev_app_distr; simpl.
  now rewrite H.
Qed.

(** ** Rendering *)

Lemma str_join_snoc sep l x :
  str_join sep (l ++ [x]) =
  match l with
  | [] => x
  | _ :: _ => str_join sep l ++ sep ++ x
  end.
Proof.
  induction l as [|y l IH]; [reflexivity|].
  change ((y :: l) ++ [x]) with (y :: (l ++ [x])).
  destruct l as [|z l].
  - simpl. reflexivity.
  - change (str_join sep (y :: (z :: l) ++ [x]))
      with (y ++ sep ++ str_join sep ((z :: l) ++ [x])).
    rewrite IH.
    change (str_join sep (y :: z :: l))
      with (y ++ sep ++ str_join sep (z :: l)).
    now rewrite <- !app_assoc.
Qed.

Lemma hex_render_snoc bs b :
  hex_render (bs ++ [b]) = render_lead bs ++ format_02x b.
Proof.
  unfold hex_render, render_lead. rewrite map_app. simpl map.
  rewrite str_join_snoc. destruct bs; simpl map.
  - reflexivity.
  - now rewrite <- app_assoc.
Qed.

Lemma hex_render_cons b bs :
  hex_render (b :: bs) =
  format_02x b ++ match bs with [] => [] | _ :: _ => str " " ++ hex_render bs end.
Proof.
  unfold hex_render. destruct bs; simpl map.
  - simpl. reflexivity.
  - reflexivity.
Qed.

Lemma digits_app s t : digits (s ++ t) = (digits s + digits t)%nat.
Proof. unfold digits, remove_spaces. now rewrite List.filter_app, length_app. Qed.

Lemma digits_format b : digits (format_02x b) = 2%nat.
Proof.
  unfold digits, remove_spaces, format_02x. simpl.
  destruct (Ascii.eqb_spec (hex_digit (b / 16)) " ") as [H|_];
    [now apply hex_digit_not_space in H|].
  destruct (Ascii.eqb_spec (hex_digit (b mod 16)) " ") as [H|_];
    [now apply hex_digit_not_space in H|].
  reflexivity.
Qed.

Lemma digits_render bs : digits (hex_render bs) = (2 * length bs)%nat.
Proof.
  induction bs as [|b bs IH]; [reflexivity|].
  rewrite hex_render_cons, digits_app, digits_format.
  destruct bs as [|b' bs]; [reflexivity|].
  rewrite digits_app, IH. simpl length. change (digits (str " ")) with 0%nat.
  lia.
Qed.

(** ** Normalisation of the rendering *)

Lemma format_low_nibble_zero b :
  b mod 16 = 0 -> format_02x b = [hex_digit (b / 16); "0"%char].
Proof. intros H. unfold format_02x. now rewrite H. Qed.

Lemma high_nibble_nonzero b :
  is_byte b -> b <> 0 -> b mod 16 = 0 -> 1 <= b / 16 < 16.
Proof.
  intros Hb Hn Hm. pose proof (byte_high_nibble b Hb).
  pose proof (Z.div_mod b 16). lia.
Qed.

Lemma normalise_trailing_zero bs b :
  is_byte b -> b <> 0 -> b mod 16 = 0 ->
  normalise (hex_render (bs ++ [b])) =
  str "0" ++ str_lstrip (str "00 ") (render_lead bs) ++ [hex_digit (b / 16)].
Proof.
  intros Hb Hn Hm.
  pose proof (high_nibble_nonzero b Hb Hn Hm) as Hh.
  assert (Hkeep : in_chars (str "00 ") (hex_digit (b / 16)) = false).
  { rewrite hex_digit_stripped by lia. apply Z.eqb_neq. lia. }
  rewrite hex_render_snoc, format_low_nibble_zero by assumption.
  unfold normalise, str_strip.
  rewrite lstrip_app_kept by assumption.
  change (hex_digit (b / 16) :: ["0"%char])
    with ([hex_digit (b / 16)] ++ ["0"%char]).
  rewrite app_assoc, rstrip_snoc_dropped by reflexivity.
  rewrite rstrip_snoc_kept by assumption.
  destruct (str_lstrip (str "00 ") (render_lead bs)) as [|c t] eqn:Hl.
  - cbn [app].
    destruct (Ascii.eqb_spec (hex_digit (b / 16)) "0") as [E|_].
    + rewrite E in Hkeep. discriminate.
    + reflexivity.
  - cbn [app]. apply lstrip_head in Hl.
    destruct (Ascii.eqb_spec c "0") as [E|_].
    + rewrite E in Hl. discriminate.
    + reflexivity.
Qed.

Lemma lstrip_low_first b0 tail :
  1 <= b0 < 16 ->
  str "0" ++ str_lstrip (str "00 ") (format_02x b0 ++ tail)
  = format_02x b0 ++ tail.
Proof.
  intros Hb0. unfold format_02x.
  rewrite Z.div_small, Z.mod_small by lia.
  change ([hex_digit 0; hex_digit b0] ++ tail)
    with ("0"%char :: hex_digit b0 :: tail).
  change (str_lstrip (str "00 ") ("0"%char :: hex_digit b0 :: tail))
    with (str_lstrip (str "00 ") (hex_digit b0 :: tail)).
  rewrite lstrip_kept; [reflexivity|].
  rewrite hex_digit_stripped by lia. apply Z.eqb_neq. lia.
Qed.

Lemma last_snoc_char (s : pystr) c : last (s ++ [c]) = Some c.
Proof. apply last_snoc. Qed.

(** ** Frame receiver: the hex string *)

(** C9, as amended.  When the last received byte is nonzero and its hex
    rendering ends in the digit 0, the returned string is the rendering
    without its leading run of ['0'] and [' '], without that final ['0'],
    and with one ['0'] put in front, so it is not the rendering of the
    bytes received.  The reported count is half the digits left: one less
    than the number of bytes received when the first byte is 0x01..0x0F. *)
Theorem trailing_zero_digit_lost (bs : list Z) (b : Z) :
  is_byte b -> b <> 0 -> b mod 16 = 0 ->
  (exists dropped kept,
      hex_render (bs ++ [b]) = dropped ++ kept ++ str "0" /\
      Forall (fun c => c = "0"%char \/ c = " "%char) dropped /\
      last kept = Some (hex_digit (b / 16)) /\
      fst (hex_result (bs ++ [b])) = str "0" ++ kept) /\
  fst (hex_result (bs ++ [b])) <> hex_render (bs ++ [b]) /\
  (forall b0 rest,
      bs ++ [b] = b0 :: rest -> 1 <= b0 < 16 ->
      snd (hex_result (bs ++ [b])) = (length (bs ++ [b]) - 1)%nat).
Proof.
  intros Hb Hn Hm.
  pose proof (high_nibble_nonzero b Hb Hn Hm) as Hh.
  pose proof (normalise_trailing_zero bs b Hb Hn Hm) as Hnorm.
  assert (Hne : hex_digit (b / 16) <> "0"%char).
  { intros E. pose proof (hex_digit_stripped (b / 16)) as Hs.
    rewrite E in Hs. specialize (Hs ltac:(lia)).
    symmetry in Hs. apply Z.eqb_eq in Hs. lia. }
  split; [|split].
  - destruct (lstrip_split (str "00 ") (render_lead bs)) as (dropped & Hd & Hall).
    exists dropped, (str_lstrip (str "00 ") (render_lead bs) ++ [hex_digit (b / 16)]).
    split; [|split; [|split]].
    + rewrite hex_render_snoc, format_low_nibble_zero by assumption.
      rewrite Hd at 1. rewrite <- !app_assoc. reflexivity.
    + eapply Forall_impl; [exact Hall|]. intros c Hc.
      now apply in_strip_chars.
    + apply last_snoc_char.
    + exact Hnorm.
  - unfold hex_result; cbn [fst]. rewrite Hnorm.
    rewrite hex_render_snoc, format_low_nibble_zero by assumption.
    intros E. apply (f_equal last) in E.
    rewrite app_assoc, last_snoc_char in E.
    change (hex_digit (b / 16) :: ["0"%char])
      with ([hex_digit (b / 16)] ++ ["0"%char]) in E.
    rewrite app_assoc, last_snoc_char in E. congruence.
  - intros b0 rest Hfr Hb0. unfold hex_result; cbn [snd]. rewrite Hnorm.
    destruct bs as [|b0' bs'].
    { simpl in Hfr. injection Hfr as -> _.
      rewrite Z.mod_small in Hm by lia. lia. }
    simpl in Hfr. injection Hfr as -> _.
    assert (Hlead : str "0" ++ str_lstrip (str "00 ") (render_lead (b0 :: bs'))
                    = render_lead (b0 :: bs')).
    { unfold render_lead. rewrite hex_render_cons, <- app_assoc.
      apply lstrip_low_first. lia. }
    rewrite app_assoc, Hlead.
    fold (digits (render_lead (b0 :: bs') ++ [hex_digit (b / 16)])).
    rewrite digits_app. unfold render_lead. rewrite digits_app, digits_render.
    change (digits (str " ")) with 0%nat.
    assert (Hd1 : digits [hex_digit (b / 16)] = 1%nat).
    { unfold digits, remove_spaces. simpl.
      destruct (Ascii.eqb_spec (hex_digit (b / 16)) " ") as [H|_];
        [now apply hex_digit_not_space in H|reflexivity]. }
    rewrite Hd1, length_app. simpl length.
    replace (2 * S (length bs') + 0 + 1)%nat with (1 + S (length bs') * 2)%nat by lia.
    rewrite Nat.div_add by lia. simpl. lia.
Qed.

Lemma trailing_zero_digit_lost_witness :
  (exists dropped kept,
      hex_render ([0x01; 0x36; 0; 0; 0; 0x1C] ++ [0x20])
        = dropped ++ kept ++ str "0" /\
      Forall (fun c => c = "0"%char \/ c = " "%char) dropped /\
      last kept = Some (hex_digit (0x20 / 16)) /\
      fst (hex_result ([0x01; 0x36; 0; 0; 0; 0x1C] ++ [0x20]))
        = str "0" ++ kept) /\
  fst (hex_result ([0x01; 0x36; 0; 0; 0; 0x1C] ++ [0x20]))
    <> hex_render ([0x01; 0x36; 0; 0; 0; 0x1C] ++ [0x20]) /\
  (forall b0 rest,
      [0x01; 0x36; 0; 0; 0; 0x1C] ++ [0x20] = b0 :: rest -> 1 <= b0 < 16 ->
      snd (hex_result ([0x01; 0x36; 0; 0; 0; 0x1C] ++ [0x20]))
        = (length ([0x01; 0x36; 0; 0; 0; 0x1C] ++ [0x20]) - 1)%nat).
Proof.
  apply (trailing_zero_digit_lost [0x01; 0x36; 0; 0; 0; 0x1C] 0x20);
    [unfold is_byte; lia | lia | reflexivity].
Defined.

(** C9 as stated fails on the count: for the two bytes 0x36 0x20 the
    string is corrupted (its tokens are "036" and "2") but the reported
    count is still the number of bytes received. *)
Lemma count_can_still_match :
  0x20 mod 16 = 0 /\ 0x20 <> 0 /\
  hex_result [0x36; 0x20] = (str "036 2", 2%nat) /\
  snd (hex_result [0x36; 0x20]) = length [0x36; 0x20].
Proof. repeat split; try reflexivity. lia. Qed.

(** ** Frame receiver: the loop *)

Lemma rx_steps_trans ticks s1 s2 s3 :
  rx_steps ticks s1 s2 -> rx_steps ticks s2 s3 -> rx_steps ticks s1 s3.
Proof.
  induction 1; intros H23; [exact H23|].
  eapply rx_steps_pass; eauto.
Qed.

Lemma rx_steps_returns ticks s s' r fuel :
  rx_steps ticks s s' -> rx_loop ticks fuel s' = Some r ->
  exists fuel', rx_loop ticks fuel' s = Some r.
Proof.
  induction 1 as [s|s s1 s2 Hp _ IH]; intros Hr.
  - eauto.
  - destruct (IH Hr) as [f Hf]. exists (S f). simpl. now rewrite Hp.
Qed.

Lemma rx_steps_hangs ticks s s' :
  rx_steps ticks s s' -> (forall fuel, rx_loop ticks fuel s' = None) ->
  forall fuel, rx_loop ticks fuel s = None.
Proof.
  induction 1 as [s|s s1 s2 Hp _ IH]; intros Hn fuel; [apply Hn|].
  destruct fuel as [|fuel]; [reflexivity|].
  simpl. rewrite Hp. now apply IH.
Qed.

Lemma rx_passes_steps ticks n : forall s s',
  rx_passes ticks n s = inl s' -> rx_steps ticks s s'.
Proof.
  induction n as [|n IH]; simpl; intros s s' H.
  - injection H as ->. apply rx_steps_refl.
  - destruct (rx_pass ticks s) as [s1|s1] eqn:Hp; [|discriminate].
    eapply rx_steps_pass; eauto.
Qed.

Section RxTiming.
Variable ticks : nat -> Z.
(** The loop polls at least once a millisecond, and time goes on. *)
Hypothesis ticks_step : forall k, ticks k <= ticks (S k) <= ticks k + 1.
Hypothesis ticks_unbounded : forall T, exists k, T <= ticks k.

Lemma ticks_mono k k' : (k <= k')%nat -> ticks k <= ticks k'.
Proof.
  induction 1 as [|k' _ IH]; [lia|]. specialize (ticks_step k'). lia.
Qed.

(** Waiting for the next byte: it is read in the first pass made once it
    has arrived, and the time-out does not fire before. *)
Lemma wait_read n : forall s a b w K,
  rx_wire (port s) = (a, b) :: w ->
  (rx_i s < 128)%nat ->
  a <= lTime s + 100 ->
  a <= ticks K -> (K - pass s <= n)%nat ->
  exists k',
    rx_steps ticks s
      {| pass := k'; rx_i := rx_i s + 1;
         rxCmd := <[rx_i s := b]> (rxCmd s);
         lTime := ticks k';
         port := {| rx_wire := w; tx_log := tx_log (port s) |} |} /\
    a <= ticks k' <= Z.max a (ticks (pass s) + 1).
Proof.
  induction n as [|n IH]; intros s a b w K Hw Hi Ha HK Hn;
    destruct (Z_le_gt_dec a (ticks (S (pass s)))) as [Hle|Hgt].
  1,3: exists (S (pass s)); split;
       [ eapply rx_steps_pass; [|apply rx_steps_refl];
         unfold rx_pass, uart_any, uart_read1; rewrite Hw;
         apply Z.leb_le in Hle; rewrite Hle;
         apply Nat.ltb_lt in Hi; rewrite Hi; reflexivity
       | specialize (ticks_step (pass s)); lia ].
  - exfalso. assert (K <= pass s)%nat as HKp by lia.
    apply ticks_mono in HKp. specialize (ticks_step (pass s)). lia.
  - assert (Hp : rx_pass ticks s =
                 inl {| pass := S (pass s); rx_i := rx_i s; rxCmd := rxCmd s;
                        lTime := lTime s; port := port s |}).
    { unfold rx_pass, uart_any, ticks_diff. rewrite Hw.
      destruct (Z.leb_spec a (ticks (S (pass s)))); [lia|].
      destruct (Z.gtb_spec (ticks (S (pass s)) - lTime s) 100); [lia|].
      reflexivity. }
    destruct (IH {| pass := S (pass s); rx_i := rx_i s; rxCmd := rxCmd s;
                    lTime := lTime s; port := port s |} a b w K Hw Hi Ha HK)
      as (k' & Hst & Hk'); [simpl; lia|].
    exists k'. split.
    + eapply rx_steps_pass; [exact Hp|exact Hst].
    + simpl in Hk'. lia.
Qed.

(** Waiting for silence: with nothing due on the wire before, the loop
    returns in the first pass made more than 100 ms after the last
    activity, with the buffer and the port as they are. *)
Lemma wait_timeout n : forall s K,
  match rx_wire (port s) with
  | [] => True
  | (a, _) :: _ => lTime s + 101 < a
  end ->
  ticks (pass s) <= lTime s + 100 ->
  lTime s + 101 <= ticks K -> (K - pass s <= n)%nat ->
  exists fuel s',
    rx_loop ticks fuel s = Some s' /\
    rx_i s' = rx_i s /\ rxCmd s' = rxCmd s /\ port s' = port s.
Proof.
  induction n as [|n IH]; intros s K Hw Hlate HK Hn;
    pose proof (ticks_step (pass s)) as Hs;
    (assert (Hany : uart_any (port s) (ticks (S (pass s))) = false);
     [ unfold uart_any; destruct (rx_wire (port s)) as [|[a b] w];
       [reflexivity|apply Z.leb_gt; lia] |]);
    destruct (Z_le_gt_dec (ticks (S (pass s)) - lTime s) 100) as [Hle|Hgt].
  2,4: exists 1%nat, s; simpl; unfold rx_pass, ticks_diff; rewrite Hany;
       destruct (Z.gtb_spec (ticks (S (pass s)) - lTime s) 100); [|lia];
       repeat split; reflexivity.
  - exfalso. assert (K <= pass s)%nat as HKp by lia.
    apply ticks_mono in HKp. lia.
  - assert (Hp : rx_pass ticks s =
                 inl {| pass := S (pass s); rx_i := rx_i s; rxCmd := rxCmd s;
                        lTime := lTime s; port := port s |}).
    { unfold rx_pass, ticks_diff. rewrite Hany.
      destruct (Z.gtb_spec (ticks (S (pass s)) - lTime s) 100); [lia|].
      reflexivity. }
    destruct (IH {| pass := S (pass s); rx_i := rx_i s; rxCmd := rxCmd s;
                    lTime := lTime s; port := port s |} K Hw)
      as (fuel & s' & Hr & H1 & H2 & H3); simpl; [lia|lia|lia|].
    exists (S fuel), s'. simpl. rewrite Hp. auto.
Qed.

Lemma rx_frame_store s b :
  (rx_i s < length (rxCmd s))%nat ->
  take (rx_i s + 1) (<[rx_i s := b]> (rxCmd s)) = rx_frame s ++ [b].
Proof.
  intros Hi. unfold rx_frame. rewrite Nat.add_1_r.
  rewrite (take_S_r _ _ b) by now apply list_lookup_insert_eq.
  now rewrite take_insert_ge by lia.
Qed.

(** A paced run of bytes is accumulated whole.  [d] bounds the delay of
    the last read behind the arrival of its byte; each further byte adds
    at most one pass, that is one millisecond. *)
Lemma accumulate : forall w s p d rest,
  paced p w ->
  p <= lTime s <= p + d ->
  ticks (pass s) = lTime s ->
  rx_wire (port s) = w ++ rest ->
  (rx_i s + length w <= 128)%nat ->
  length (rxCmd s) = 128%nat ->
  exists s',
    rx_steps ticks s s' /\
    rx_frame s' = rx_frame s ++ map snd w /\
    rx_i s' = (rx_i s + length w)%nat /\
    port s' = {| rx_wire := rest; tx_log := tx_log (port s) |} /\
    ticks (pass s') = lTime s' /\
    last_arrival p w <= lTime s' <= last_arrival p w + d + Z.of_nat (length w).
Proof.
  induction w as [|[a b] w IH]; intros s p d rest Hp Hl Ht Hw Hi Hlen.
  - exists s. simpl in *. rewrite app_nil_r. repeat split; try lia.
    + apply rx_steps_refl.
    + destruct (port s); simpl in *; congruence.
  - simpl in Hp, Hw, Hi. destruct Hp as [Hpa Hp].
    destruct (ticks_unbounded a) as [K HK].
    destruct (wait_read (K - pass s) s a b (w ++ rest) K Hw) as (k' & Hst & Hk');
      [lia|lia|exact HK|lia|].
    match type of Hst with rx_steps _ _ ?s1 =>
      destruct (IH s1 a (d + 1) rest Hp)
        as (s' & Hst' & Hfr & Hi' & Hport & Htk & Hla)
    end; simpl; [lia|reflexivity|reflexivity|lia|now rewrite length_insert|].
    exists s'. simpl in Hfr, Hport, Hi'.
    split; [eapply rx_steps_trans; eassumption|].
    split; [|split; [lia|split; [exact Hport|split; [exact Htk|simpl; lia]]]].
    rewrite Hfr. unfold rx_frame at 1. cbn [rx_i rxCmd].
    rewrite rx_frame_store by lia. now rewrite <- app_assoc.
Qed.

End RxTiming.

(** ** Frames the normalisation leaves intact *)

Lemma normalise_last_kept x c :
  in_chars (str "00 ") c = false ->
  normalise (x ++ [c]) = str "0" ++ str_lstrip (str "00 ") (x ++ [c]).
Proof.
  intros Hc. unfold normalise, str_strip.
  rewrite lstrip_app_kept, rstrip_snoc_kept by assumption.
  destruct (str_lstrip (str "00 ") x) as [|c' t] eqn:Hl; cbn [app].
  - destruct (Ascii.eqb_spec c "0") as [E|_]; [|reflexivity].
    rewrite E in Hc. discriminate.
  - apply lstrip_head in Hl.
    destruct (Ascii.eqb_spec c' "0") as [E|_]; [|reflexivity].
    rewrite E in Hl. discriminate.
Qed.

Lemma last_digit_kept bl :
  bl mod 16 <> 0 -> in_chars (str "00 ") (hex_digit (bl mod 16)) = false.
Proof.
  intros H. rewrite hex_digit_stripped by apply byte_low_nibble.
  now apply Z.eqb_neq.
Qed.

Lemma hex_render_last frame bl :
  last frame = Some bl ->
  exists x, hex_render frame = x ++ [hex_digit (bl mod 16)].
Proof.
  intros Hl. apply last_Some in Hl as [init ->].
  rewrite hex_render_snoc. unfold format_02x.
  exists (render_lead init ++ [hex_digit (bl / 16)]).
  now rewrite <- app_assoc.
Qed.

(** A frame whose first byte is nonzero and whose last byte does not end
    in the digit 0 keeps all its digits; a ['0'] is put in front of a
    first byte of 0x10 or more. *)
Lemma normalise_intact b0 rest bl :
  is_byte b0 -> b0 <> 0 ->
  last (b0 :: rest) = Some bl -> bl mod 16 <> 0 ->
  normalise (hex_render (b0 :: rest)) = pad b0 ++ hex_render (b0 :: rest).
Proof.
  intros Hb0 Hn0 Hl Hbl.
  destruct (hex_render_last _ _ Hl) as [x Hx].
  rewrite Hx, normalise_last_kept by now apply last_digit_kept.
  rewrite <- Hx. unfold pad.
  destruct (Z.ltb_spec b0 16) as [Hlt|Hge].
  - rewrite hex_render_cons. apply lstrip_low_first. unfold is_byte in Hb0. lia.
  - rewrite hex_render_cons. unfold format_02x at 1.
    change ([hex_digit (b0 / 16); hex_digit (b0 mod 16)] ++ ?t)
      with (hex_digit (b0 / 16) :: hex_digit (b0 mod 16) :: t).
    rewrite lstrip_kept; [reflexivity|].
    pose proof (byte_high_nibble b0 Hb0).
    rewrite hex_digit_stripped by lia. apply Z.eqb_neq.
    pose proof (Z.div_le_lower_bound b0 16 1). lia.
Qed.

Lemma hex_result_intact b0 rest bl :
  is_byte b0 -> b0 <> 0 ->
  last (b0 :: rest) = Some bl -> bl mod 16 <> 0 ->
  hex_result (b0 :: rest) =
  (pad b0 ++ hex_render (b0 :: rest), length (b0 :: rest)).
Proof.
  intros Hb0 Hn0 Hl Hbl. unfold hex_result.
  rewrite (normalise_intact b0 rest bl) by assumption. f_equal.
  fold (digits (pad b0 ++ hex_render (b0 :: rest))).
  rewrite digits_app, digits_render. unfold pad.
  destruct (b0 <? 16).
  - change (digits []) with 0%nat. rewrite Nat.add_0_l, Nat.mul_comm.
    apply Nat.div_mul. lia.
  - change (digits (str "0")) with 1%nat. rewrite (Nat.mul_comm 2).
    rewrite Nat.div_add by lia. reflexivity.
Qed.

(** With the buffer full and a further byte due before the time-out, the
    loop never ends: until the byte arrives the silence is too short, and
    from then on the byte is seen but not read. *)
Lemma rx_full_with_pending_hangs ticks a b w :
  forall fuel s,
    (128 <= rx_i s)%nat ->
    rx_wire (port s) = (a, b) :: w ->
    a <= lTime s + 100 ->
    rx_loop ticks fuel s = None.
Proof.
  induction fuel as [|fuel IH]; intros s Hi Hw Ha; [reflexivity|].
  simpl. unfold rx_pass, uart_any, ticks_diff. rewrite Hw.
  destruct (rx_i s <? 128)%nat eqn:Hlt; [apply Nat.ltb_lt in Hlt; lia|].
  destruct (Z.leb_spec a (ticks (S (pass s)))).
  - apply IH; assumption.
  - destruct (Z.gtb_spec (ticks (S (pass s)) - lTime s) 100); [lia|].
    apply IH; assumption.
Qed.



Lemma every_ms_step k : every_ms k <= every_ms (S k) <= every_ms k + 1.
Proof. unfold every_ms. lia. Qed.

Lemma every_ms_unbounded T : exists k, T <= every_ms k.
Proof. exists (Z.to_nat T). unfold every_ms. lia. Qed.

(** ** Frame receiver: the claims *)

(** C3 fails on the code.  129 bytes arrive one a millisecond and the line
    then stays silent for ever.  The claim has the call return after 100 ms
    of silence, the 129th byte dropped.  The code stores 128 bytes and
    then finds [uart.any()] true in every pass: the [read] is under
    [if i < 128], the byte stays on the port, the [else] branch with the
    time-out test is never taken, and the call does not return. *)
Theorem overflow_never_returns fuel :
  Receive_Data every_ms fuel (line (replicate 129 0x01)) = None.
Proof.
  unfold Receive_Data.
  assert (H : exists s,
             rx_passes every_ms 128 (rx_init every_ms (line (replicate 129 0x01)))
               = inl s /\
             (128 <= rx_i s)%nat /\
             exists w, rx_wire (port s) = (128, 0x01) :: w /\ 128 <= lTime s + 100).
  { eexists. split; [vm_compute; reflexivity|].
    split; [cbn [rx_i]; lia|]. eexists. split; [reflexivity|cbn [lTime]; lia]. }
  destruct H as (s & Hs & Hi & w & Hw & Hl).
  apply rx_passes_steps in Hs.
  rewrite (rx_steps_hangs every_ms _ s Hs); [reflexivity|].
  intros f. now apply (rx_full_with_pending_hangs every_ms 128 0x01 w).
Qed.

(** Up to the capacity the receiver does return: 128 bytes then silence. *)
Remark full_buffer_returns :
  exists fuel r,
    Receive_Data every_ms fuel (line (replicate 128 0x01)) = Some r /\
    snd (fst r) = 128%nat.
Proof. exists 300%nat. eexists. split; [vm_compute; reflexivity|reflexivity]. Qed.

(** C5, as amended.  Five bytes arrive, the first within 100 ms of the
    call and no two more than 100 ms apart, and whatever follows comes at
    least 150 ms after the fifth.  Polled at least once a millisecond,
    [Receive_Data] returns with exactly these five bytes accumulated and
    leaves the later bytes unread on the port; the string and the count it
    returns are those lines 206-210 derive from these five bytes alone.
    When the first byte is nonzero and the last does not end in the digit
    0, the string is the two-digit rendering of all five bytes, with one
    more ['0'] in front if the first byte is 0x10 or more, and the count
    is 5; so for a first byte 0x01..0x0F the string is exactly the
    rendering. *)
Theorem five_bytes_then_gap (ticks : nat -> Z)
    a1 b1 a2 b2 a3 b3 a4 b4 a5 b5 later tx :
  (forall k, ticks k <= ticks (S k) <= ticks k + 1) ->
  (forall T, exists k, T <= ticks k) ->
  paced (ticks 0%nat) [(a1, b1); (a2, b2); (a3, b3); (a4, b4); (a5, b5)] ->
  Forall (fun p => a5 + 150 <= fst p) later ->
  (exists fuel,
      Receive_Data ticks fuel
        {| rx_wire := [(a1, b1); (a2, b2); (a3, b3); (a4, b4); (a5, b5)]
                      ++ later;
           tx_log := tx |}
      = Some (hex_result [b1; b2; b3; b4; b5],
              {| rx_wire := later; tx_log := tx |})) /\
  (is_byte b1 -> b1 <> 0 -> b5 mod 16 <> 0 ->
   hex_result [b1; b2; b3; b4; b5]
   = (pad b1 ++ hex_render [b1; b2; b3; b4; b5], 5%nat)) /\
  (1 <= b1 < 16 -> b5 mod 16 <> 0 ->
   hex_result [b1; b2; b3; b4; b5]
   = (hex_render [b1; b2; b3; b4; b5], 5%nat)).
Proof.
  intros Hstep Hunb Hp Hlater. split; [|split].
  - destruct (accumulate ticks Hstep Hunb
                [(a1, b1); (a2, b2); (a3, b3); (a4, b4); (a5, b5)]
                (rx_init ticks
                   {| rx_wire := [(a1, b1); (a2, b2); (a3, b3); (a4, b4); (a5, b5)]
                                 ++ later;
                      tx_log := tx |})
                (ticks 0%nat) 0 later Hp)
      as (s' & Hst & Hfr & Hi & Hport & Htk & Hla);
      [simpl; lia|reflexivity|reflexivity|simpl; lia|reflexivity|].
    simpl in Hla, Hport, Hfr.
    destruct (Hunb (lTime s' + 101)) as [K HK].
    destruct (wait_timeout ticks Hstep (K - pass s') s' K)
      as (fuel & s'' & Hr & H1 & H2 & H3); [|lia|exact HK|lia|].
    { rewrite Hport. simpl. destruct later as [|[a b] l]; [exact I|].
      apply Forall_cons in Hlater as [Ha _]. simpl in Ha. lia. }
    destruct (rx_steps_returns ticks _ _ _ _ Hst Hr) as [fuel' Hfuel].
    exists fuel'. unfold Receive_Data. rewrite Hfuel.
    unfold rx_frame in *. rewrite H1, H2, H3, Hfr, Hport. reflexivity.
  - intros Hb1 Hn1 Hb5.
    apply (hex_result_intact b1 [b2; b3; b4; b5] b5); auto.
  - intros Hb1 Hb5.
    rewrite (hex_result_intact b1 [b2; b3; b4; b5] b5);
      [|unfold is_byte; lia|lia|reflexivity|exact Hb5].
    unfold pad. destruct (Z.ltb_spec b1 16); [reflexivity|lia].
Qed.

Lemma five_bytes_then_gap_witness :
  (exists fuel,
      Receive_Data every_ms fuel
        {| rx_wire := [(0, 0x01); (1, 0xFD); (2, 0x9F); (3, 0x00); (4, 0x6B)]
                      ++ [(154, 0x01); (155, 0x36)];
           tx_log := [] |}
      = Some (hex_result [0x01; 0xFD; 0x9F; 0x00; 0x6B],
              {| rx_wire := [(154, 0x01); (155, 0x36)]; tx_log := [] |})) /\
  (is_byte 0x01 -> 0x01 <> 0 -> 0x6B mod 16 <> 0 ->
   hex_result [0x01; 0xFD; 0x9F; 0x00; 0x6B]
   = (pad 0x01 ++ hex_render [0x01; 0xFD; 0x9F; 0x00; 0x6B], 5%nat)) /\
  (1 <= 0x01 < 16 -> 0x6B mod 16 <> 0 ->
   hex_result [0x01; 0xFD; 0x9F; 0x00; 0x6B]
   = (hex_render [0x01; 0xFD; 0x9F; 0x00; 0x6B], 5%nat)).
Proof.
  apply (five_bytes_then_gap every_ms 0 0x01 1 0xFD 2 0x9F 3 0x00 4 0x6B
           [(154, 0x01); (155, 0x36)] []).
  - exact every_ms_step.
  - exact every_ms_unbounded.
  - simpl. unfold every_ms. simpl. lia.
  - repeat constructor; simpl; lia.
Defined.

(** C5 as stated fails: of the five bytes 01 02 03 04 00, followed by a
    gap of 150 ms, the call returns the string of four and the count 4. *)
Lemma five_bytes_not_all_returned :
  Receive_Data every_ms 200
    {| rx_wire := [(0, 0x01); (1, 0x02); (2, 0x03); (3, 0x04); (4, 0x00)]
                  ++ [(154, 0x07)];
       tx_log := [] |}
  = Some (str "01 02 03 04", 4%nat, {| rx_wire := [(154, 0x07)]; tx_log := [] |})
  /\ str "01 02 03 04" <> hex_render [0x01; 0x02; 0x03; 0x04; 0x00]
  /\ 4%nat <> length [0x01; 0x02; 0x03; 0x04; 0x00].
Proof.
  split; [vm_compute; reflexivity|].
  split; [vm_compute; discriminate|simpl; lia].
Qed.

(** ** Tokens of an intact string *)

Lemma split_go_render : forall bs b cur,
  str_split_go cur (hex_render (b :: bs))
  = (cur ++ format_02x b) :: map format_02x bs.
Proof.
  induction bs as [|b' bs IH]; intros b cur; rewrite hex_render_cons;
    unfold format_02x at 1;
    change ([hex_digit (b / 16); hex_digit (b mod 16)] ++ ?t)
      with (hex_digit (b / 16) :: hex_digit (b mod 16) :: t);
    cbn [str_split_go]; rewrite !hex_digit_not_blank, <- app_assoc;
    cbn [app].
  - cbn [str_split_go].
    destruct (cur ++ [hex_digit (b / 16); hex_digit (b mod 16)]) eqn:E;
      [|now rewrite <- E].
    apply app_eq_nil in E as [_ E]. discriminate.
  - change (str " " ++ hex_render (b' :: bs))
      with (" "%char :: hex_render (b' :: bs)).
    cbn [str_split_go].
    change (is_whitespace " ") with true. cbv iota.
    rewrite IH.
    destruct (cur ++ [hex_digit (b / 16); hex_digit (b mod 16)]) eqn:E.
    + apply app_eq_nil in E as [_ E]. discriminate.
    + now rewrite <- E.
Qed.

Lemma split_intact b0 rest :
  str_split (pad b0 ++ hex_render (b0 :: rest))
  = (pad b0 ++ format_02x b0) :: map format_02x rest.
Proof.
  unfold str_split, pad. destruct (b0 <? 16).
  - apply split_go_render.
  - change (str "0" ++ hex_render (b0 :: rest))
      with ("0"%char :: hex_render (b0 :: rest)).
    cbn [str_split_go]. change (is_whitespace "0") with false. cbv iota.
    apply split_go_render.
Qed.

Lemma int16_format b : is_byte b -> int16 (format_02x b) = Ok b.
Proof.
  intros Hb. unfold format_02x, int16, hex_value.
  rewrite !hex_val_digit by (apply byte_high_nibble || apply byte_low_nibble; assumption).
  f_equal. pose proof (Z.div_mod b 16). lia.
Qed.

Lemma int16_padded b : is_byte b -> int16 (pad b ++ format_02x b) = Ok b.
Proof.
  intros Hb. unfold pad. destruct (b <? 16); [now apply int16_format|].
  exact (int16_format b Hb).
Qed.

Lemma fromhex_formats bs :
  Forall is_byte bs -> fromhex (concat (map format_02x bs)) = Ok bs.
Proof.
  induction 1 as [|b bs Hb _ IH]; [reflexivity|].
  cbn [map concat]. unfold format_02x at 1. cbn [app fromhex].
  rewrite !hex_val_digit by (apply byte_high_nibble || apply byte_low_nibble; assumption).
  rewrite IH. cbn [mbind result_bind]. do 2 f_equal.
  pose proof (Z.div_mod b 16). lia.
Qed.

Lemma padded_render_nonempty b0 rest :
  exists c t, pad b0 ++ hex_render (b0 :: rest) = c :: t.
Proof.
  rewrite hex_render_cons. unfold pad, format_02x.
  destruct (b0 <? 16); cbn [app str list_ascii_of_string]; eauto.
Qed.

(** The test of line 222 on an intact string reads the first two bytes. *)
Lemma is_position_reply_intact b0 rest :
  is_byte b0 ->
  (forall b1 rest', rest = b1 :: rest' -> is_byte b1) ->
  is_position_reply (pad b0 ++ hex_render (b0 :: rest))
    (length (b0 :: rest))
    ((pad b0 ++ format_02x b0) :: map format_02x rest)
  = if b0 =? 0x01
    then match rest with
         | [] => Raise IndexError
         | b1 :: _ => Ok (b1 =? 0x36)
         end
    else Ok false.
Proof.
  intros Hb0 Hb1. unfold is_position_reply.
  destruct (padded_render_nonempty b0 rest) as (c & t & ->).
  cbn [length Nat.ltb Nat.leb]. unfold getitem. cbn [lookup list_lookup].
  cbn [mbind result_bind]. rewrite (int16_padded b0 Hb0).
  cbn [mbind result_bind]. destruct (b0 =? 1); [|reflexivity].
  destruct rest as [|b1 rest']; [reflexivity|].
  cbn [map lookup list_lookup mbind result_bind].
  rewrite (int16_format b1) by (eapply Hb1; reflexivity). reflexivity.
Qed.

(** ** Position decoder on intact frames *)

(** A frame that does not start with 0x01 0x36: the default 0.0. *)
Lemma decode_mismatch b0 b1 rest bl :
  is_byte b0 -> is_byte b1 -> b0 <> 0 ->
  last (b0 :: b1 :: rest) = Some bl -> bl mod 16 <> 0 ->
  b0 <> 0x01 \/ b1 <> 0x36 ->
  decode_position (fst (hex_result (b0 :: b1 :: rest)))
    (snd (hex_result (b0 :: b1 :: rest))) = Ok 0%Q.
Proof.
  intros Hb0 Hb1 Hn0 Hl Hbl Hmis.
  rewrite (hex_result_intact b0 (b1 :: rest) bl) by assumption.
  cbn [fst snd]. unfold decode_position.
  rewrite split_intact, is_position_reply_intact;
    [|assumption|intros ? ? [= <- _]; assumption].
  destruct (Z.eqb_spec b0 1) as [E0|_]; [|reflexivity].
  destruct (Z.eqb_spec b1 0x36) as [E1|_]; [|reflexivity].
  tauto.
Qed.

(** A position reply that the normalisation leaves intact (one closed by
    the terminator 0x6B, say) is decoded as section 4.3 has it. *)
Lemma decode_reply sgn m3 m2 m1 m0 tail bl :
  Forall is_byte [sgn; m3; m2; m1; m0] ->
  last (0x01 :: 0x36 :: sgn :: m3 :: m2 :: m1 :: m0 :: tail) = Some bl ->
  bl mod 16 <> 0 ->
  decode_position
    (fst (hex_result (0x01 :: 0x36 :: sgn :: m3 :: m2 :: m1 :: m0 :: tail)))
    (snd (hex_result (0x01 :: 0x36 :: sgn :: m3 :: m2 :: m1 :: m0 :: tail)))
  = Ok (if sgn =? 0 then angle_of (be_decode [m3; m2; m1; m0])
        else Qopp (angle_of (be_decode [m3; m2; m1; m0]))).
Proof.
  intros Hb Hl Hbl.
  assert (Hs : is_byte sgn) by now inversion Hb.
  assert (Hm : Forall is_byte [m3; m2; m1; m0]) by now inversion Hb.
  rewrite (hex_result_intact 0x01 _ bl); [|unfold is_byte; lia|lia|exact Hl|exact Hbl].
  cbn [fst snd]. unfold decode_position.
  rewrite split_intact, is_position_reply_intact;
    [|unfold is_byte; lia|intros ? ? [= <- _]; unfold is_byte; lia].
  change (0x01 =? 0x01) with true. change (0x36 =? 0x36) with true.
  cbn [mbind result_bind map slice firstn skipn]. rewrite take_0.
  change (concat [format_02x m3; format_02x m2; format_02x m1; format_02x m0])
    with (concat (map format_02x [m3; m2; m1; m0])).
  rewrite fromhex_formats by assumption.
  cbn [mbind result_bind]. unfold unpack_uint32_be. cbn [length Nat.eqb].
  cbn [mbind result_bind]. unfold getitem. cbn [lookup list_lookup].
  cbn [mbind result_bind]. rewrite (int16_format sgn Hs). reflexivity.
Qed.

(** ** [Real_time_location] *)

Lemma position_request rt :
  Read_Sys_Params rt 1 "S_CPOS" = Ok [0x01; 0x36; 0x6B].
Proof. destruct rt; vm_compute; reflexivity. Qed.

Lemma rx_loop_more_fuel ticks fuel : forall s r k,
  rx_loop ticks fuel s = Some r -> rx_loop ticks (fuel + k) s = Some r.
Proof.
  induction fuel as [|fuel IH]; simpl; intros s r k H; [discriminate|].
  destruct (rx_pass ticks s); [now apply IH|exact H].
Qed.

Lemma rx_pass_tx ticks s s' :
  rx_pass ticks s = inl s' \/ rx_pass ticks s = inr s' ->
  tx_log (port s') = tx_log (port s).
Proof.
  unfold rx_pass, uart_read1.
  destruct (uart_any (port s) (ticks (S (pass s)))).
  - destruct (rx_i s <? 128)%nat.
    + destruct (rx_wire (port s)) as [|[a b] w];
        intros [[= <-]|[=]]; reflexivity.
    + intros [[= <-]|[=]]; reflexivity.
  - destruct (ticks_diff (ticks (S (pass s))) (lTime s) >? 100);
      intros [[= <-]|[= <-]]; reflexivity.
Qed.

Lemma rx_loop_tx ticks fuel : forall s s',
  rx_loop ticks fuel s = Some s' -> tx_log (port s') = tx_log (port s).
Proof.
  induction fuel as [|fuel IH]; simpl; intros s s' H; [discriminate|].
  destruct (rx_pass ticks s) as [s1|s1] eqn:Hp.
  - rewrite (IH _ _ H). apply (rx_pass_tx ticks). auto.
  - injection H as <-. apply (rx_pass_tx ticks). auto.
Qed.

(** The call, once the receive loop has returned in state [s]. *)
Lemma Real_time_location_run rt ticks fuel u s :
  rx_loop ticks fuel (rx_init ticks u) = Some s ->
  Real_time_location rt ticks fuel u =
  Some match decode_position (fst (hex_result (rx_frame s)))
               (snd (hex_result (rx_frame s))) with
       | Raise e =>
           {| returned := Raise e; printed := []; port_after := port s |}
       | Ok x => reading x (port s)
       end.
Proof.
  intros H. unfold Real_time_location, Receive_Data.
  rewrite position_request, H.
  destruct (hex_result (rx_frame s)) as [data count]. cbn [fst snd].
  destruct (decode_position data count); reflexivity.
Qed.

(** ** Position decoder: the claims *)

(** C1 fails on the code, at the frame of scenario 3 itself.  The seven
    bytes 01 36 00 00 00 1C 20 are received and rendered, the strip takes
    the final ['0'] of "20" away, and [Receive_Data] returns the string
    "01 36 00 00 00 1c 2" with the count 6.  The decoder joins the
    tokens 3 to 6 into the seven digits "00001c2" and [bytes.fromhex]
    raises [ValueError]: no angle is computed, neither 39.55 for sign
    byte 0 nor its negation for sign byte 1. *)
Theorem scenario_3_reply_raises rt fuel :
  Receive_Data every_ms (300 + fuel)
    (line [0x01; 0x36; 0x00; 0x00; 0x00; 0x1C; 0x20])
  = Some (str "01 36 00 00 00 1c 2", 6%nat,
          {| rx_wire := []; tx_log := [] |}) /\
  Real_time_location rt every_ms (300 + fuel)
    (line [0x01; 0x36; 0x00; 0x00; 0x00; 0x1C; 0x20])
  = Some {| returned := Raise ValueError; printed := [];
            port_after := {| rx_wire := []; tx_log := [] |} |} /\
  Real_time_location rt every_ms (300 + fuel)
    (line [0x01; 0x36; 0x01; 0x00; 0x00; 0x1C; 0x20])
  = Some {| returned := Raise ValueError; printed := [];
            port_after := {| rx_wire := []; tx_log := [] |} |}.
Proof.
  assert (H0 : exists s,
             rx_loop every_ms 300
               (rx_init every_ms (line [0x01; 0x36; 0x00; 0x00; 0x00; 0x1C; 0x20]))
             = Some s /\
             rx_frame s = [0x01; 0x36; 0x00; 0x00; 0x00; 0x1C; 0x20] /\
             port s = {| rx_wire := []; tx_log := [] |})
    by (eexists; split; [vm_compute; reflexivity|split; reflexivity]).
  assert (H1 : exists s,
             rx_loop every_ms 300
               (rx_init every_ms (line [0x01; 0x36; 0x01; 0x00; 0x00; 0x1C; 0x20]))
             = Some s /\
             rx_frame s = [0x01; 0x36; 0x01; 0x00; 0x00; 0x1C; 0x20] /\
             port s = {| rx_wire := []; tx_log := [] |})
    by (eexists; split; [vm_compute; reflexivity|split; reflexivity]).
  destruct H0 as (s0 & Hs0 & Hf0 & Hp0). destruct H1 as (s1 & Hs1 & Hf1 & Hp1).
  apply (rx_loop_more_fuel _ _ _ _ fuel) in Hs0, Hs1.
  split; [|split].
  - unfold Receive_Data. rewrite Hs0, Hf0, Hp0. vm_compute. reflexivity.
  - rewrite (Real_time_location_run _ _ _ _ s0 Hs0), Hf0, Hp0.
    vm_compute. reflexivity.
  - rewrite (Real_time_location_run _ _ _ _ s1 Hs1), Hf1, Hp1.
    vm_compute. reflexivity.
Qed.

(** The same reply closed by the terminator 0x6B is decoded: the printed
    float is [7200 * 360 / 65536], that is 39.55078125. *)
Remark scenario_3_with_terminator rt :
  exists x,
    Real_time_location rt every_ms 300
      (line [0x01; 0x36; 0x00; 0x00; 0x00; 0x1C; 0x20; 0x6B])
    = Some (reading x {| rx_wire := []; tx_log := [] |}) /\
    (x == 7200 * 360 / 65536)%Q /\ (x == 39.55078125)%Q.
Proof.
  eexists. split; [destruct rt; vm_compute; reflexivity|].
  split; reflexivity.
Qed.

(** Where the normalisation keeps the bytes, the decoder computes the
    angle of section 4.3 from the frame it received. *)
Lemma position_reply_decoded rt ticks fuel u s sgn m3 m2 m1 m0 tail bl :
  rx_loop ticks fuel (rx_init ticks u) = Some s ->
  rx_frame s = 0x01 :: 0x36 :: sgn :: m3 :: m2 :: m1 :: m0 :: tail ->
  Forall is_byte [sgn; m3; m2; m1; m0] ->
  last (rx_frame s) = Some bl -> bl mod 16 <> 0 ->
  Real_time_location rt ticks fuel u =
  Some (reading (if sgn =? 0 then angle_of (be_decode [m3; m2; m1; m0])
                 else Qopp (angle_of (be_decode [m3; m2; m1; m0])))
          (port s)).
Proof.
  intros Hs Hf Hb Hl Hbl.
  rewrite (Real_time_location_run _ _ _ _ s Hs). rewrite Hf in *.
  now rewrite (decode_reply sgn m3 m2 m1 m0 tail bl).
Qed.

(** C4, as amended.  For a received frame of at least two bytes that does
    not start with 0x01 0x36 (first byte nonzero, last byte not ending in
    the digit 0, so that the normalisation keeps the bytes) the call
    raises nothing and ends normally; there is no separate result for "no
    reading": it prints the default angle 0.0 and returns None, which is
    exactly what it does for the real zero-degree reply
    01 36 00 00 00 00 00 6B. *)
Theorem mismatched_reply_prints_zero rt ticks fuel u s b0 b1 rest bl :
  rx_loop ticks fuel (rx_init ticks u) = Some s ->
  rx_frame s = b0 :: b1 :: rest ->
  is_byte b0 -> is_byte b1 -> b0 <> 0 ->
  last (rx_frame s) = Some bl -> bl mod 16 <> 0 ->
  b0 <> 0x01 \/ b1 <> 0x36 ->
  Real_time_location rt ticks fuel u = Some (reading 0 (port s)) /\
  Real_time_location rt every_ms 300
    (line [0x01; 0x36; 0x00; 0x00; 0x00; 0x00; 0x00; 0x6B])
  = Some (reading 0 {| rx_wire := []; tx_log := [] |}).
Proof.
  intros Hs Hf Hb0 Hb1 Hn0 Hl Hbl Hmis. split.
  - rewrite (Real_time_location_run _ _ _ _ s Hs). rewrite Hf in *.
    now rewrite (decode_mismatch b0 b1 rest bl).
  - destruct rt; vm_compute; reflexivity.
Qed.

Lemma mismatched_reply_prints_zero_witness :
  Real_time_location MicroPython every_ms 300
    (line [0x02; 0x36; 0x00; 0x00; 0x00; 0x1C; 0x21])
  = Some (reading 0 {| rx_wire := []; tx_log := [] |}) /\
  Real_time_location MicroPython every_ms 300
    (line [0x01; 0x36; 0x00; 0x00; 0x00; 0x00; 0x00; 0x6B])
  = Some (reading 0 {| rx_wire := []; tx_log := [] |}).
Proof.
  eassert (E : rx_loop every_ms 300
                 (rx_init every_ms (line [0x02; 0x36; 0x00; 0x00; 0x00; 0x1C; 0x21]))
               = Some _) by (vm_compute; reflexivity).
  refine (mismatched_reply_prints_zero MicroPython every_ms 300 _ _
            0x02 0x36 [0x00; 0x00; 0x00; 0x1C; 0x21] 0x21
            E eq_refl _ _ _ eq_refl _ _);
    [ unfold is_byte; lia | unfold is_byte; lia | lia
    | vm_compute; discriminate | left; lia ].
Defined.

(** C4 as stated fails.  A reply from address 2 is not a position reply of
    motor 1, and the outcome of the call is the outcome for a real reading
    of zero degrees: 0.0 is printed, None is returned.  A frame of three
    bytes with the right prefix is not answered with "no reading" either:
    [struct.unpack] raises on the empty buffer. *)
Lemma no_reading_is_zero_reading :
  Real_time_location MicroPython every_ms 300
    (line [0x02; 0x36; 0x00; 0x00; 0x00; 0x1C; 0x21])
  = Real_time_location MicroPython every_ms 300
      (line [0x01; 0x36; 0x00; 0x00; 0x00; 0x00; 0x00; 0x6B]) /\
  Real_time_location MicroPython every_ms 300
    (line [0x02; 0x36; 0x00; 0x00; 0x00; 0x1C; 0x21])
  = Some (reading 0 {| rx_wire := []; tx_log := [] |}) /\
  Real_time_location MicroPython every_ms 300 (line [0x01; 0x36; 0x01])
  = Some {| returned := Raise StructError; printed := [];
            port_after := {| rx_wire := []; tx_log := [] |} |}.
Proof. repeat split; vm_compute; reflexivity. Qed.

(** C10.  [Real_time_location] builds the request 01 36 6B and drops it:
    whatever the call does, the log of bytes written to the port is what
    it was.  When the call ends normally it returns None, the angle
    having gone to [print] only; otherwise it raises, and nothing is
    printed. *)
Theorem request_not_sent_none_returned rt ticks fuel u o :
  Real_time_location rt ticks fuel u = Some o ->
  Read_Sys_Params rt 1 "S_CPOS" = Ok [0x01; 0x36; 0x6B] /\
  tx_log (port_after o) = tx_log u /\
  ((exists x, returned o = Ok PyNone /\ printed o = [x]) \/
   (exists e, returned o = Raise e /\ printed o = [])).
Proof.
  intros H. split; [apply position_request|].
  unfold Real_time_location, Receive_Data in H.
  rewrite position_request in H.
  destruct (rx_loop ticks fuel (rx_init ticks u)) as [s|] eqn:Hs; [|discriminate].
  apply rx_loop_tx in Hs. simpl in Hs.
  destruct (hex_result (rx_frame s)) as [data count].
  destruct (decode_position data count) as [x|e];
    injection H as <-; simpl; split; eauto.
Qed.

Lemma request_not_sent_none_returned_witness :
  Read_Sys_Params MicroPython 1 "S_CPOS" = Ok [0x01; 0x36; 0x6B] /\
  tx_log {| rx_wire := []; tx_log := [] |} = tx_log (line [0x01; 0x36; 0x00; 0x00; 0x00; 0x1C; 0x20; 0x6B]) /\
  ((exists x, Ok PyNone = Ok PyNone /\ [angle_of 7200] = [x]) \/
   (exists e, Ok PyNone = Raise e /\ [angle_of 7200] = [])).
Proof.
  eassert (E : Real_time_location MicroPython every_ms 300
                 (line [0x01; 0x36; 0x00; 0x00; 0x00; 0x1C; 0x20; 0x6B])
               = Some (reading (angle_of 7200) {| rx_wire := []; tx_log := [] |}))
    by (vm_compute; reflexivity).
  exact (request_not_sent_none_returned MicroPython every_ms 300 _ _ E).
Defined.

(** * Further properties of the encoders *)

Lemma is_byteb_true v : is_byteb v = true <-> is_byte v.
Proof.
  unfold is_byteb, is_byte. rewrite andb_true_iff, Z.leb_le, Z.ltb_lt.
  tauto.
Qed.

Lemma is_byteb_false v : is_byteb v = false <-> ~ is_byte v.
Proof.
  rewrite <- is_byteb_true. destruct (is_byteb v); split; congruence.
Qed.

Lemma setitem_cpython_bad cmd i v :
  (i <? length cmd)%nat = true -> is_byteb v = false ->
  setitem CPython cmd i v = Raise ValueError.
Proof. intros Hi Hv. unfold setitem, byte_value. now rewrite Hi, Hv. Qed.

(** The frame of a command whose unmasked fields are bytes. *)
Lemma encode_frame_of rt c :
  Forall is_byte (unmasked_fields c) -> encode rt c = Ok (frame_of c).
Proof.
  intros Hf. destruct c; simpl in Hf; decompose_Forall_hyps; simpl.
  1: { destruct (func_codes !! s) as [code|] eqn:Hs.
       - rewrite (Read_Sys_Params_known _ _ _ code), stored_byte;
           auto using storable_byte.
       - rewrite Read_Sys_Params_unknown, stored_byte;
           auto using storable_byte. }
  all: unfold_encoders;
       repeat (rewrite setitem_byte;
               [ cbn [mbind result_bind] | reflexivity
               | first [assumption | solve_byte] ]);
       reflexivity.
Qed.

Lemma func_codes_injective s1 s2 code :
  func_codes !! s1 = Some code -> func_codes !! s2 = Some code -> s1 = s2.
Proof.
  intros H1 H2.
  apply elem_of_list_to_map_2 in H1. apply elem_of_list_to_map_2 in H2.
  repeat (apply elem_of_cons in H1 as [H1|H1];
          [injection H1 as -> ->;
           repeat (apply elem_of_cons in H2 as [H2|H2];
                   [first [discriminate H2 | (injection H2 as ->; reflexivity)]|]);
           now apply elem_of_nil in H2|]).
  now apply elem_of_nil in H1.
Qed.

Lemma flag_inj a b : flag a = flag b -> a = b.
Proof. destruct a, b; simpl; intros H; congruence. Qed.

Lemma bytes16_inj v w :
  0 <= v < 2 ^ 16 -> 0 <= w < 2 ^ 16 ->
  Z.land (Z.shiftr v 8) 0xFF = Z.land (Z.shiftr w 8) 0xFF ->
  Z.land v 0xFF = Z.land w 0xFF -> v = w.
Proof.
  intros Hv Hw H1 H2.
  pose proof (be_decode_16 v) as Ev. pose proof (be_decode_16 w) as Ew.
  rewrite H1, H2, Ew in Ev. rewrite !Z.mod_small in Ev by assumption.
  congruence.
Qed.

Lemma bytes32_inj v w :
  0 <= v < 2 ^ 32 -> 0 <= w < 2 ^ 32 ->
  Z.land (Z.shiftr v 24) 0xFF = Z.land (Z.shiftr w 24) 0xFF ->
  Z.land (Z.shiftr v 16) 0xFF = Z.land (Z.shiftr w 16) 0xFF ->
  Z.land (Z.shiftr v 8) 0xFF = Z.land (Z.shiftr w 8) 0xFF ->
  Z.land v 0xFF = Z.land w 0xFF -> v = w.
Proof.
  intros Hv Hw H1 H2 H3 H4.
  pose proof (be_decode_32 v) as Ev. pose proof (be_decode_32 w) as Ew.
  rewrite H1, H2, H3, H4, Ew in Ev. rewrite !Z.mod_small in Ev by assumption.
  congruence.
Qed.

Lemma frame_of_inj c1 c2 :
  in_range c1 -> in_range c2 -> frame_of c1 = frame_of c2 -> c1 = c2.
Proof.
  intros R1 R2 H.
  destruct c1, c2; cbn [frame_of] in H;
    repeat match goal with
           | R : in_range (CRead_Sys_Params _ ?s) |- _ =>
               let Hc := fresh "Hc" in
               destruct R as (_ & _ & _ & [? Hc]); rewrite Hc in H
           end;
    try discriminate H.
  all: injection H as ?; subst;
    repeat match goal with
           | E : flag _ = flag _ |- _ => apply flag_inj in E; subst
           | R : in_range _ |- _ =>
               destruct R as (_ & ? & ? & _); simpl in *
           end; decompose_Forall_hyps.
  all: try reflexivity.
  - f_equal. eapply func_codes_injective; eassumption.
  - f_equal. now apply bytes16_inj.
  - f_equal; [now apply bytes16_inj|now apply bytes32_inj].
  - f_equal; first [now apply bytes16_inj|now apply bytes32_inj].
Qed.

(** X1.  Commands whose numbers fit their fields are told apart by their
    frames: two such commands that differ in the operation, the parameter
    name, the address, a flag or a number have different frames. *)
Theorem encode_injective rt c1 c2 :
  in_range c1 -> in_range c2 -> c1 <> c2 -> encode rt c1 <> encode rt c2.
Proof.
  intros R1 R2 Hne H. apply Hne.
  rewrite !encode_frame_of in H by (apply R1 || apply R2).
  injection H as H. now apply frame_of_inj.
Qed.

Lemma encode_injective_witness :
  encode CPython (CPos_Control 1 0 300 5 3200 true false)
  <> encode CPython (CPos_Control 1 0 300 5 3201 true false).
Proof.
  apply (encode_injective CPython);
    [ unfold in_range; simpl; repeat split; repeat constructor; lia
    | unfold in_range; simpl; repeat split; repeat constructor; lia
    | intros [= H]; lia ].
Defined.

Lemma forallb_is_byteb l : forallb is_byteb l = true <-> Forall is_byte l.
Proof.
  induction l as [|v l IH]; simpl.
  - split; [constructor|reflexivity].
  - rewrite andb_true_iff, IH, is_byteb_true, Forall_cons. tauto.
Qed.

(** One store on CPython: refused for a value known to be out of range,
    done for a byte. *)
Ltac cpython_store :=
  match goal with
  | H : is_byteb ?v = false |- context [setitem CPython ?cmd ?i ?v] =>
      rewrite (setitem_cpython_bad cmd i v) by (reflexivity || exact H);
      cbn [mbind result_bind]
  | |- context [setitem CPython ?cmd ?i ?v] =>
      rewrite (setitem_byte CPython cmd i v);
      [ cbn [mbind result_bind] | reflexivity
      | first [ solve_byte | apply is_byteb_true; assumption ] ]
  end.

Lemma encode_cpython c :
  encode CPython c =
  if forallb is_byteb (unmasked_fields c) then Ok (frame_of c)
  else Raise ValueError.
Proof.
  destruct (forallb is_byteb (unmasked_fields c)) eqn:E.
  - apply encode_frame_of. now apply forallb_is_byteb.
  - destruct c; cbn [unmasked_fields forallb] in E; cbn [encode];
      unfold_encoders; unfold Read_Sys_Params;
      repeat match type of E with
             | context [is_byteb ?v] => destruct (is_byteb v) eqn:?
             end;
      try discriminate E;
      repeat cpython_store; reflexivity.
Qed.

(** X2.  The only error an encoder raises is [ValueError], on CPython,
    and it raises it exactly when one of the fields it stores without a
    mask (address, direction, acceleration, mode) is outside 0..255; no
    store is ever out of the bounds of the buffer, and on MicroPython
    nothing is raised at all. *)
Theorem encoder_raises_iff rt c e :
  encode rt c = Raise e <->
  rt = CPython /\ e = ValueError /\ ~ Forall is_byte (unmasked_fields c).
Proof.
  split.
  - intros H. destruct rt.
    + destruct (encode_returns MicroPython c) as (f & Hf & _); [|congruence].
      apply Forall_forall. intros; exact I.
    + rewrite encode_cpython in H.
      destruct (forallb is_byteb (unmasked_fields c)) eqn:E; [discriminate|].
      injection H as <-. repeat split.
      intros Hf. apply forallb_is_byteb in Hf. congruence.
  - intros (-> & -> & Hbad). rewrite encode_cpython.
    destruct (forallb is_byteb (unmasked_fields c)) eqn:E; [|reflexivity].
    apply forallb_is_byteb in E. contradiction.
Qed.

Lemma mask_of_wrapped v w n :
  0 <= n -> n + 8 <= w ->
  Z.land (Z.shiftr (v mod 2 ^ w) n) 0xFF = Z.land (Z.shiftr v n) 0xFF.
Proof.
  intros Hn Hw. apply Z.bits_inj'. intros i Hi.
  rewrite !Z.land_spec, !Z.shiftr_spec by lia.
  change 0xFF with (Z.ones 8). rewrite Z.testbit_ones by lia.
  destruct (Z.ltb_spec i 8) as [Hlt|Hge].
  - rewrite Z.mod_pow2_bits_low by lia. reflexivity.
  - now rewrite andb_false_r, !andb_false_r.
Qed.

Lemma mask_of_wrapped_0 v w :
  8 <= w -> Z.land (v mod 2 ^ w) 0xFF = Z.land v 0xFF.
Proof.
  intros Hw. pose proof (mask_of_wrapped v w 0) as H.
  rewrite !Z.shiftr_0_r in H. apply H; lia.
Qed.

(** X3.  The two-byte and four-byte numbers wrap silently, on either
    runtime: an encoder returns for a velocity, pulse count, timeout or
    stall threshold what it returns for that number modulo 2^16 or 2^32,
    a negative or oversized value included; it neither rejects nor
    saturates it. *)
Theorem masked_fields_wrap rt addr dir acc o_mode o_dir
    (vel clk o_vel o_tm sl_vel sl_ma sl_ms : Z) (snF raF svF potF : bool) :
  Vel_Control rt addr dir vel acc snF
  = Vel_Control rt addr dir (vel mod 2 ^ 16) acc snF /\
  Pos_Control rt addr dir vel acc clk raF snF
  = Pos_Control rt addr dir (vel mod 2 ^ 16) acc (clk mod 2 ^ 32) raF snF /\
  Origin_Modify_Params rt addr svF o_mode o_dir o_vel o_tm
    sl_vel sl_ma sl_ms potF
  = Origin_Modify_Params rt addr svF o_mode o_dir (o_vel mod 2 ^ 16)
      (o_tm mod 2 ^ 32) (sl_vel mod 2 ^ 16) (sl_ma mod 2 ^ 16)
      (sl_ms mod 2 ^ 16) potF.
Proof.
  unfold Vel_Control, Pos_Control, Origin_Modify_Params.
  rewrite !(mask_of_wrapped _ 16 8), !(mask_of_wrapped_0 _ 16) by lia.
  rewrite !(mask_of_wrapped _ 32 24), !(mask_of_wrapped _ 32 16),
    !(mask_of_wrapped _ 32 8), !(mask_of_wrapped_0 _ 32) by lia.
  repeat split.
Qed.

(** X4.  A parameter name that is not in the table is not refused: the
    read request is built without a function code, as the two bytes
    address and terminator, the same for every unknown name. *)
Theorem unknown_name_request rt addr s s' :
  storable rt addr ->
  func_codes !! s = None -> func_codes !! s' = None ->
  Read_Sys_Params rt addr s = Ok [stored rt addr; 0x6B] /\
  Read_Sys_Params rt addr s = Read_Sys_Params rt addr s'.
Proof.
  intros Ha Hs Hs'. rewrite !Read_Sys_Params_unknown by assumption.
  split; reflexivity.
Qed.

Lemma unknown_name_request_witness :
  Read_Sys_Params CPython 1 "S_TEMP" = Ok [stored CPython 1; 0x6B] /\
  Read_Sys_Params CPython 1 "S_TEMP" = Read_Sys_Params CPython 1 "s_cpos".
Proof.
  apply (unknown_name_request CPython 1 "S_TEMP" "s_cpos");
    [unfold storable, is_byte; lia | vm_compute; reflexivity
    | vm_compute; reflexivity].
Defined.

(** ** Wrapping on MicroPython *)

Lemma byte_of_wrapped v w n :
  0 <= n -> n + 8 <= w ->
  Z.land (Z.shiftr v n) 0xFF = (v mod 2 ^ w / 2 ^ n) mod 256.
Proof.
  intros Hn Hw. rewrite <- (mask_of_wrapped v w n) by assumption.
  now apply shiftr_land_byte.
Qed.

Lemma low_byte_of_wrapped v w :
  8 <= w -> Z.land v 0xFF = v mod 2 ^ w mod 256.
Proof.
  intros Hw. rewrite <- (mask_of_wrapped_0 v w) by assumption.
  apply land_255.
Qed.

Lemma encode_wrapped c :
  encode MicroPython c = Ok (frame_of (wrapped c)).
Proof.
  destruct c; cbn [wrapped frame_of encode].
  1: { destruct (func_codes !! s) as [code|] eqn:Hs.
       - now rewrite (Read_Sys_Params_known _ _ _ code) by (exact I || assumption).
       - now rewrite Read_Sys_Params_unknown by (exact I || assumption). }
  all: unfold_encoders; run_stores;
       rewrite ?(mask_of_wrapped _ 16 8), ?(mask_of_wrapped_0 _ 16),
         ?(mask_of_wrapped _ 32 24), ?(mask_of_wrapped _ 32 16),
         ?(mask_of_wrapped _ 32 8), ?(mask_of_wrapped_0 _ 32) by lia;
       reflexivity.
Qed.

(** C2.  On the MicroPython runtime the module is written for, every one
    of the thirteen encoders returns a frame of bytes for all integer
    inputs and raises nothing, and the frame is the frame of the command
    with each number wrapped to its field: address, direction,
    acceleration and mode modulo 2^8, velocities and stall thresholds
    modulo 2^16, pulse count and timeout modulo 2^32.  Written out for
    the encoders with direction, velocity and acceleration:
    [Vel_Control] and [Pos_Control] keep the low 16 bits of [vel], the low
    8 bits of [addr], [dir] and [acc] and the low 32 bits of [clk];
    [Origin_Modify_Params] likewise for its fields. *)
Theorem encoders_total_and_wrapping :
  (forall c,
      encode MicroPython c = Ok (frame_of (wrapped c)) /\
      Forall is_byte (frame_of (wrapped c)) /\
      exists frame, encode MicroPython c = Ok frame /\ Forall is_byte frame) /\
  (forall addr dir vel acc snF,
      Vel_Control MicroPython addr dir vel acc snF =
      Ok [addr mod 256; 0xF6; dir mod 256;
          vel mod 2 ^ 16 / 256; vel mod 2 ^ 16 mod 256;
          acc mod 256; flag snF; 0x6B]) /\
  (forall addr dir vel acc clk raF snF,
      Pos_Control MicroPython addr dir vel acc clk raF snF =
      Ok [addr mod 256; 0xFD; dir mod 256;
          vel mod 2 ^ 16 / 256; vel mod 2 ^ 16 mod 256;
          acc mod 256;
          (clk mod 2 ^ 32 / 2 ^ 24) mod 256; (clk mod 2 ^ 32 / 2 ^ 16) mod 256;
          (clk mod 2 ^ 32 / 2 ^ 8) mod 256; clk mod 2 ^ 32 mod 256;
          flag raF; flag snF; 0x6B]) /\
  (forall addr svF o_mode o_dir o_vel o_tm sl_vel sl_ma sl_ms potF,
      Origin_Modify_Params MicroPython addr svF o_mode o_dir o_vel o_tm
        sl_vel sl_ma sl_ms potF =
      Ok [addr mod 256; 0x4C; 0xAE; flag svF; o_mode mod 256; o_dir mod 256;
          o_vel mod 2 ^ 16 / 256; o_vel mod 2 ^ 16 mod 256;
          (o_tm mod 2 ^ 32 / 2 ^ 24) mod 256;
          (o_tm mod 2 ^ 32 / 2 ^ 16) mod 256;
          (o_tm mod 2 ^ 32 / 2 ^ 8) mod 256; o_tm mod 2 ^ 32 mod 256;
          sl_vel mod 2 ^ 16 / 256; sl_vel mod 2 ^ 16 mod 256;
          sl_ma mod 2 ^ 16 / 256; sl_ma mod 2 ^ 16 mod 256;
          sl_ms mod 2 ^ 16 / 256; sl_ms mod 2 ^ 16 mod 256;
          flag potF; 0x6B]).
Proof.
  assert (Hhi : forall v, Z.land (Z.shiftr v 8) 0xFF = v mod 2 ^ 16 / 256).
  { intros v. rewrite shiftr_land_byte by lia. change (2 ^ 8) with 256.
    apply low16_high_byte. }
  assert (Hlo : forall v, Z.land v 0xFF = v mod 2 ^ 16 mod 256).
  { intros v. rewrite land_255. apply low16_low_byte. }
  split; [|split; [|split]].
  - intros c.
    destruct (encode_returns MicroPython c) as (f & Hf & Hb);
      [apply Forall_forall; intros; exact I|].
    pose proof (encode_wrapped c) as Hw.
    assert (f = frame_of (wrapped c)) as -> by congruence.
    split; [exact Hw|]. split; [exact Hb|]. eauto.
  - intros. rewrite Vel_Control_frame by exact I.
    now rewrite Hhi, Hlo.
  - intros. rewrite Pos_Control_frame by exact I.
    rewrite (byte_of_wrapped clk 32 24), (byte_of_wrapped clk 32 16),
      (byte_of_wrapped clk 32 8), (low_byte_of_wrapped clk 32) by lia.
    rewrite (Hhi vel), (Hlo vel). reflexivity.
  - intros. rewrite Origin_Modify_Params_frame by exact I.
    rewrite (byte_of_wrapped o_tm 32 24), (byte_of_wrapped o_tm 32 16),
      (byte_of_wrapped o_tm 32 8), (low_byte_of_wrapped o_tm 32) by lia.
    rewrite !Hhi, !Hlo. reflexivity.
Qed.

(** * Further properties of the receiver *)








(** A paced run of at most 128 bytes, then silence long enough: the loop
    returns holding exactly that run. *)
Lemma rx_loop_burst (ticks : nat -> Z) w later tx :
  (forall k, ticks k <= ticks (S k) <= ticks k + 1) ->
  (forall T, exists k, T <= ticks k) ->
  paced (ticks 0%nat) w -> (length w <= 128)%nat ->
  next_after (last_arrival (ticks 0%nat) w + Z.of_nat (length w) + 101) later ->
  exists fuel s,
    rx_loop ticks fuel (rx_init ticks {| rx_wire := w ++ later; tx_log := tx |})
    = Some s /\
    rx_frame s = map snd w /\
    port s = {| rx_wire := later; tx_log := tx |}.
Proof.
  intros Hstep Hunb Hp Hlen Hnext.
  destruct (accumulate ticks Hstep Hunb w
              (rx_init ticks {| rx_wire := w ++ later; tx_log := tx |})
              (ticks 0%nat) 0 later Hp)
    as (s' & Hst & Hfr & Hi & Hport & Htk & Hla);
    [simpl; lia|reflexivity|reflexivity|simpl; lia|reflexivity|].
  simpl in Hport, Hfr.
  destruct (Hunb (lTime s' + 101)) as [K HK].
  destruct (wait_timeout ticks Hstep (K - pass s') s' K)
    as (fuel & s'' & Hr & H1 & H2 & H3); [|lia|exact HK|lia|].
  { rewrite Hport. simpl. unfold next_after in Hnext.
    destruct later as [|[a b] l]; [exact I|lia]. }
  destruct (rx_steps_returns ticks _ _ _ _ Hst Hr) as [fuel' Hfuel].
  exists fuel', s''. split; [exact Hfuel|].
  unfold rx_frame in *. now rewrite H1, H2, H3, Hfr, Hport.
Qed.

(** X6.  Within the capacity the receiver does what it is for.  Up to 128
    bytes arrive, the first within 100 ms of the call and no two more than
    100 ms apart, and the next byte, if any, comes more than 101 ms plus
    one millisecond a byte after the last.  Polled at least once a
    millisecond, [Receive_Data] returns the normalised string and count of
    exactly these bytes and leaves the rest on the port. *)
Theorem paced_burst_received (ticks : nat -> Z) w later tx :
  (forall k, ticks k <= ticks (S k) <= ticks k + 1) ->
  (forall T, exists k, T <= ticks k) ->
  paced (ticks 0%nat) w -> (length w <= 128)%nat ->
  next_after (last_arrival (ticks 0%nat) w + Z.of_nat (length w) + 101) later ->
  exists fuel,
    Receive_Data ticks fuel {| rx_wire := w ++ later; tx_log := tx |}
    = Some (hex_result (map snd w), {| rx_wire := later; tx_log := tx |}).
Proof.
  intros Hstep Hunb Hp Hlen Hnext.
  destruct (rx_loop_burst ticks w later tx Hstep Hunb Hp Hlen Hnext)
    as (fuel & s & Hs & Hf & Hport).
  exists fuel. unfold Receive_Data. now rewrite Hs, Hf, Hport.
Qed.

Lemma paced_burst_received_witness :
  exists fuel,
    Receive_Data every_ms fuel
      {| rx_wire := [(3, 0x01); (50, 0x36); (140, 0x6B)] ++ [(300, 0x01)];
         tx_log := [] |}
    = Some (hex_result (map snd [(3, 0x01); (50, 0x36); (140, 0x6B)]),
            {| rx_wire := [(300, 0x01)]; tx_log := [] |}).
Proof.
  apply (paced_burst_received every_ms [(3, 0x01); (50, 0x36); (140, 0x6B)]
           [(300, 0x01)] []).
  - exact every_ms_step.
  - exact every_ms_unbounded.
  - simpl. unfold every_ms. simpl. lia.
  - simpl. lia.
  - simpl. unfold every_ms. simpl. lia.
Defined.

(** X7.  No reply at all.  When nothing arrives within 101 ms of the call
    [Receive_Data] returns the empty string and the count 0, and
    [Real_time_location] prints 0.0 and returns None: a motor that does
    not answer is reported like a motor at zero degrees.  Nothing is taken
    from the port. *)
Theorem silent_line_reads_zero rt (ticks : nat -> Z) later tx :
  (forall k, ticks k <= ticks (S k) <= ticks k + 1) ->
  (forall T, exists k, T <= ticks k) ->
  next_after (ticks 0%nat + 101) later ->
  exists fuel,
    Receive_Data ticks fuel {| rx_wire := later; tx_log := tx |}
    = Some ([], 0%nat, {| rx_wire := later; tx_log := tx |}) /\
    Real_time_location rt ticks fuel {| rx_wire := later; tx_log := tx |}
    = Some (reading 0 {| rx_wire := later; tx_log := tx |}).
Proof.
  intros Hstep Hunb Hnext.
  destruct (rx_loop_burst ticks [] later tx Hstep Hunb)
    as (fuel & s & Hs & Hf & Hport); [exact I|simpl; lia| |].
  { simpl. rewrite Z.add_0_r. exact Hnext. }
  simpl in Hs. exists fuel. split.
  - unfold Receive_Data. rewrite Hs, Hf, Hport. reflexivity.
  - rewrite (Real_time_location_run _ _ _ _ s Hs), Hf, Hport. reflexivity.
Qed.

Lemma silent_line_reads_zero_witness :
  exists fuel,
    Receive_Data every_ms fuel {| rx_wire := [(500, 0x01)]; tx_log := [] |}
    = Some ([], 0%nat, {| rx_wire := [(500, 0x01)]; tx_log := [] |}) /\
    Real_time_location MicroPython every_ms fuel
      {| rx_wire := [(500, 0x01)]; tx_log := [] |}
    = Some (reading 0 {| rx_wire := [(500, 0x01)]; tx_log := [] |}).
Proof.
  apply (silent_line_reads_zero MicroPython every_ms [(500, 0x01)] []).
  - exact every_ms_step.
  - exact every_ms_unbounded.
  - simpl. unfold every_ms. simpl. lia.
Defined.


Lemma burst_snoc t bs b :
  burst t (bs ++ [b]) = burst t bs ++ [(t + Z.of_nat (length bs), b)].
Proof.
  revert t. induction bs as [|b' bs IH]; intros t; cbn [burst app length].
  - now rewrite Z.add_0_r.
  - rewrite IH, Nat2Z.inj_succ.
    now replace (t + 1 + Z.of_nat (length bs))
      with (t + Z.succ (Z.of_nat (length bs))) by lia.
Qed.



(** * Further properties of the hex string *)

Lemma lstrip_all chars s :
  Forall (fun c => in_chars chars c = true) s -> str_lstrip chars s = [].
Proof.
  induction 1 as [|c s Hc _ IH]; simpl; [reflexivity|]. now rewrite Hc.
Qed.

Lemma lstrip_app chars s t :
  str_lstrip chars (s ++ t) =
  match str_lstrip chars s with
  | [] => str_lstrip chars t
  | _ :: _ => str_lstrip chars s ++ t
  end.
Proof.
  induction s as [|c s IH]; simpl.
  - reflexivity.
  - destruct (in_chars chars c); [exact IH|reflexivity].
Qed.

(** A stripped character at the end does not change the stripped string. *)
Lemma strip_snoc_dropped chars s c :
  in_chars chars c = true -> str_strip chars (s ++ [c]) = str_strip chars s.
Proof.
  intros Hc. unfold str_strip. rewrite lstrip_app.
  destruct (str_lstrip chars s) as [|c' t] eqn:E.
  - simpl. rewrite Hc. reflexivity.
  - now rewrite rstrip_snoc_dropped.
Qed.

Lemma strip_cons_dropped chars s c :
  in_chars chars c = true -> str_strip chars (c :: s) = str_strip chars s.
Proof. intros Hc. unfold str_strip. simpl. now rewrite Hc. Qed.

Lemma hex_result_strip bs bs' :
  str_strip (str "00 ") (hex_render bs) = str_strip (str "00 ") (hex_render bs') ->
  hex_result bs = hex_result bs'.
Proof. intros H. unfold hex_result, normalise. now rewrite H. Qed.

Lemma hex_result_zero_first bs : hex_result (0 :: bs) = hex_result bs.
Proof.
  apply hex_result_strip. rewrite hex_render_cons.
  change (format_02x 0) with (str "00"). cbn [str list_ascii_of_string app].
  rewrite !strip_cons_dropped by reflexivity.
  destruct bs as [|b bs]; [reflexivity|].
  cbn [app]. now rewrite strip_cons_dropped by reflexivity.
Qed.

Lemma hex_result_zero_last bs : hex_result (bs ++ [0]) = hex_result bs.
Proof.
  apply hex_result_strip. rewrite hex_render_snoc.
  change (format_02x 0) with (["0"%char] ++ ["0"%char]).
  rewrite app_assoc, !strip_snoc_dropped by reflexivity.
  unfold render_lead. destruct bs as [|b bs]; [reflexivity|].
  change (str " ") with [" "%char].
  now rewrite strip_snoc_dropped by reflexivity.
Qed.

Lemma hex_result_zeros_first k l :
  hex_result (replicate k 0 ++ l) = hex_result l.
Proof.
  induction k as [|k IH]; [reflexivity|].
  cbn [replicate app]. now rewrite hex_result_zero_first.
Qed.

Lemma hex_result_zeros_last m l :
  hex_result (l ++ replicate m 0) = hex_result l.
Proof.
  induction m as [|m IH]; [now rewrite app_nil_r|].
  now rewrite replicate_S_end, app_assoc, hex_result_zero_last.
Qed.

(** X9.  Zero bytes at either end of what was received are not reported:
    after any number of leading and of trailing 0x00 bytes [Receive_Data]
    returns the string and the count of the bytes between them; of a
    frame of zero bytes only, it returns the empty string and 0. *)
Theorem zero_bytes_dropped k m bs :
  hex_result (replicate k 0 ++ bs ++ replicate m 0) = hex_result bs /\
  hex_result (replicate k 0) = ([], 0%nat).
Proof.
  split.
  - now rewrite hex_result_zeros_first, hex_result_zeros_last.
  - now rewrite <- (app_nil_r (replicate k 0)), hex_result_zeros_first.
Qed.

Lemma digits_rev s : digits (rev s) = digits s.
Proof.
  unfold digits, remove_spaces. induction s as [|c s IH]; [reflexivity|].
  simpl rev. rewrite List.filter_app, length_app, IH. simpl.
  destruct (negb (Ascii.eqb c " ")); simpl; lia.
Qed.

Lemma digits_lstrip chars s : (digits (str_lstrip chars s) <= digits s)%nat.
Proof.
  destruct (lstrip_split chars s) as (d & Hd & _).
  rewrite Hd at 2. rewrite digits_app. lia.
Qed.

Lemma digits_strip chars s : (digits (str_strip chars s) <= digits s)%nat.
Proof.
  unfold str_strip, str_rstrip. rewrite digits_rev.
  etransitivity; [apply digits_lstrip|]. rewrite digits_rev.
  apply digits_lstrip.
Qed.

Lemma digits_normalise s : (digits (normalise s) <= digits s + 1)%nat.
Proof.
  unfold normalise. pose proof (digits_strip (str "00 ") s) as H.
  destruct (str_strip (str "00 ") s) as [|c t]; [lia|].
  destruct (negb (Ascii.eqb c "0")); [|lia].
  rewrite digits_app. change (digits (str "0")) with 1%nat. lia.
Qed.

(** What is left of a string that has a character the strip keeps. *)
Lemma strip_kept chars s :
  Exists (fun c => in_chars chars c = false) s ->
  exists c t, str_strip chars s = c :: t /\ in_chars chars c = false.
Proof.
  intros Hex.
  assert (Hl : exists c post, str_lstrip chars s = c :: post /\
                              in_chars chars c = false).
  { induction Hex as [c s Hc|c s _ IH]; simpl.
    - rewrite Hc. eauto.
    - destruct (in_chars chars c) eqn:Hc; eauto. }
  destruct Hl as (c & post & Hl & Hc). exists c.
  unfold str_strip, str_rstrip. rewrite Hl. simpl rev.
  rewrite lstrip_app. simpl. rewrite Hc.
  destruct (str_lstrip chars (rev post)) as [|c' t'].
  - exists []. auto.
  - rewrite rev_app_distr. simpl. eauto.
Qed.

Lemma zero_byte_render bs :
  Forall (fun b => b = 0) bs ->
  Forall (fun c => in_chars (str "00 ") c = true) (hex_render bs).
Proof.
  induction 1 as [|b bs -> _ IH]; [constructor|].
  rewrite hex_render_cons. change (format_02x 0) with (str "00").
  repeat constructor. destruct bs; [constructor|].
  repeat constructor. exact IH.
Qed.

Lemma nonzero_byte_render bs :
  Forall is_byte bs -> Exists (fun b => b <> 0) bs ->
  Exists (fun c => in_chars (str "00 ") c = false) (hex_render bs).
Proof.
  intros Hb Hex. induction Hex as [b bs Hn|b bs Hex' IH];
    apply Forall_cons in Hb as [Hb Hbs]; rewrite hex_render_cons.
  - apply Exists_app. left. unfold format_02x.
    pose proof (byte_high_nibble b Hb). pose proof (byte_low_nibble b).
    destruct (Z.eq_dec (b / 16) 0) as [E|E].
    + apply Exists_cons_tl, Exists_cons_hd.
      rewrite hex_digit_stripped by lia. apply Z.eqb_neq.
      pose proof (Z.div_mod b 16). lia.
    + apply Exists_cons_hd. rewrite hex_digit_stripped by lia.
      now apply Z.eqb_neq.
  - apply Exists_app. right. destruct bs as [|b' bs]; [inversion Hex'|].
    apply Exists_app. right. now apply IH.
Qed.

(** X10.  The reported count never exceeds the number of bytes received,
    and it is 0 exactly when every received byte is 0x00: the test
    [count > 0] of the caller tells "some nonzero byte came" and nothing
    more. *)
Theorem count_bounds bs :
  Forall is_byte bs ->
  (snd (hex_result bs) <= length bs)%nat /\
  (snd (hex_result bs) = 0%nat <-> Forall (fun b => b = 0) bs).
Proof.
  intros Hb. unfold hex_result. cbn [snd]. fold (digits (normalise (hex_render bs))).
  split.
  - pose proof (digits_normalise (hex_render bs)) as H.
    rewrite digits_render in H.
    apply Nat.lt_succ_r, Nat.Div0.div_lt_upper_bound. lia.
  - split.
    + intros H0. apply Forall_forall. intros b Hin.
      destruct (Z.eq_dec b 0) as [E|E]; [exact E|exfalso].
      assert (Hex : Exists (fun b => b <> 0) bs)
        by (apply Exists_exists; eauto).
      destruct (strip_kept _ _ (nonzero_byte_render bs Hb Hex))
        as (c & t & Hs & Hc).
      unfold normalise in H0. rewrite Hs in H0.
      assert (Hc0 : Ascii.eqb c "0" = false).
      { destruct (Ascii.eqb_spec c "0") as [->|]; [discriminate|reflexivity]. }
      assert (Hcs : Ascii.eqb c " " = false).
      { destruct (Ascii.eqb_spec c " ") as [->|]; [discriminate|reflexivity]. }
      rewrite Hc0 in H0. cbn [negb] in H0.
      assert (Hd : digits (c :: t) = S (digits t)).
      { unfold digits, remove_spaces. simpl. now rewrite Hcs. }
      rewrite digits_app, Hd in H0. change (digits (str "0")) with 1%nat in H0.
      apply Nat.div_small_iff in H0; lia.
    + intros Hz. unfold normalise, str_strip.
      rewrite (lstrip_all _ _ (zero_byte_render bs Hz)). reflexivity.
Qed.

Lemma count_bounds_witness :
  (snd (hex_result [0x00; 0x01; 0x36; 0x00]%Z)
   <= length [0x00; 0x01; 0x36; 0x00]%Z)%nat /\
  (snd (hex_result [0x00; 0x01; 0x36; 0x00]) = 0%nat
   <-> Forall (fun b => b = 0) [0x00; 0x01; 0x36; 0x00]).
Proof.
  apply (count_bounds [0x00; 0x01; 0x36; 0x00]).
  repeat constructor; lia.
Defined.

Lemma int16_formats bs :
  Forall is_byte bs -> map int16 (map format_02x bs) = map Ok bs.
Proof.
  induction 1 as [|b bs Hb _ IH]; [reflexivity|].
  cbn [map]. now rewrite int16_format, IH.
Qed.

(** X11.  Round trip where the string is left intact.  For a frame of
    bytes whose first byte is nonzero and whose last byte does not end in
    the hex digit 0, the tokens of the returned string, read back with
    [int(t, 16)], are the received bytes in order, and the count is their
    number. *)
Theorem intact_frame_roundtrip b0 rest bl :
  Forall is_byte (b0 :: rest) -> b0 <> 0 ->
  last (b0 :: rest) = Some bl -> bl mod 16 <> 0 ->
  map int16 (str_split (fst (hex_result (b0 :: rest)))) = map Ok (b0 :: rest) /\
  snd (hex_result (b0 :: rest)) = length (b0 :: rest).
Proof.
  intros Hb Hn Hl Hbl. apply Forall_cons in Hb as [Hb0 Hrest].
  rewrite (hex_result_intact b0 rest bl) by assumption. cbn [fst snd].
  split; [|reflexivity].
  rewrite split_intact. cbn [map].
  now rewrite int16_padded, int16_formats.
Qed.

Lemma intact_frame_roundtrip_witness :
  map int16 (str_split (fst (hex_result (0x9A :: [0x00; 0x20; 0x6B]))))
  = map Ok (0x9A :: [0x00; 0x20; 0x6B]) /\
  snd (hex_result (0x9A :: [0x00; 0x20; 0x6B]))
  = length (0x9A :: [0x00; 0x20; 0x6B]).
Proof.
  apply (intact_frame_roundtrip 0x9A [0x00; 0x20; 0x6B] 0x6B);
    [ repeat constructor; lia | lia | reflexivity | vm_compute; discriminate ].
Defined.

(** * Further properties of the position decoder *)

(** X12.  A position reply 01 36 sign m3 m2 m1 m0 ... that the
    normalisation leaves intact (its last byte does not end in the hex
    digit 0; a reply closed by 0x6B is one) is decoded whatever follows
    the seven bytes: the call prints [m * 360 / 65536] for the big-endian
    magnitude [m] when the sign byte is 0, the negation for any other
    sign byte, and returns None. *)
Theorem position_reply_angle rt ticks fuel u s sgn m3 m2 m1 m0 tail bl :
  rx_loop ticks fuel (rx_init ticks u) = Some s ->
  rx_frame s = 0x01 :: 0x36 :: sgn :: m3 :: m2 :: m1 :: m0 :: tail ->
  Forall is_byte [sgn; m3; m2; m1; m0] ->
  last (rx_frame s) = Some bl -> bl mod 16 <> 0 ->
  exists x,
    Real_time_location rt ticks fuel u = Some (reading x (port s)) /\
    let m := 2 ^ 24 * m3 + 2 ^ 16 * m2 + 2 ^ 8 * m1 + m0 in
    0 <= m < 2 ^ 32 /\
    (if sgn =? 0 then x == inject_Z m * 360 / 65536
     else x == - (inject_Z m * 360 / 65536))%Q.
Proof.
  intros Hs Hf Hb Hl Hbl.
  eexists. split;
    [exact (position_reply_decoded rt ticks fuel u s sgn m3 m2 m1 m0 tail bl
              Hs Hf Hb Hl Hbl)|].
  assert (Hm : be_decode [m3; m2; m1; m0]
               = 2 ^ 24 * m3 + 2 ^ 16 * m2 + 2 ^ 8 * m1 + m0)
    by (unfold be_decode; simpl; ring).
  rewrite Hm. cbv zeta. split.
  - decompose_Forall_hyps. unfold is_byte in *. lia.
  - unfold angle_of. destruct (sgn =? 0); rewrite Qred_correct; reflexivity.
Qed.

Lemma position_reply_angle_witness :
  exists x,
    Real_time_location MicroPython every_ms 300
      (line [0x01; 0x36; 0x01; 0x00; 0x00; 0x1C; 0x20; 0x6B])
    = Some (reading x {| rx_wire := []; tx_log := [] |}) /\
    let m := 2 ^ 24 * 0x00 + 2 ^ 16 * 0x00 + 2 ^ 8 * 0x1C + 0x20 in
    0 <= m < 2 ^ 32 /\
    (if 0x01 =? 0 then x == inject_Z m * 360 / 65536
     else x == - (inject_Z m * 360 / 65536))%Q.
Proof.
  eassert (E : rx_loop every_ms 300
                 (rx_init every_ms
                    (line [0x01; 0x36; 0x01; 0x00; 0x00; 0x1C; 0x20; 0x6B]))
               = Some _) by (vm_compute; reflexivity).
  refine (position_reply_angle MicroPython every_ms 300 _ _
            0x01 0x00 0x00 0x1C 0x20 [0x6B] 0x6B E eq_refl _ eq_refl _);
    [ repeat constructor; lia | vm_compute; discriminate ].
Defined.

(** X13.  A reply that starts with 01 36 but is shorter than seven bytes
    is not reported as "no reading": with fewer than four magnitude bytes
    [struct.unpack] raises, nothing is printed and the exception leaves
    the call. *)
Theorem short_reply_raises rt ticks fuel u s rest bl :
  rx_loop ticks fuel (rx_init ticks u) = Some s ->
  rx_frame s = 0x01 :: 0x36 :: rest ->
  Forall is_byte rest -> (length rest < 5)%nat ->
  last (rx_frame s) = Some bl -> bl mod 16 <> 0 ->
  Real_time_location rt ticks fuel u =
  Some {| returned := Raise StructError; printed := [];
          port_after := port s |}.
Proof.
  intros Hs Hf Hb Hlen Hl Hbl.
  rewrite (Real_time_location_run _ _ _ _ s Hs). rewrite Hf in *.
  rewrite (hex_result_intact 0x01 _ bl);
    [|unfold is_byte; lia|lia|exact Hl|exact Hbl].
  cbn [fst snd]. unfold decode_position.
  rewrite split_intact, is_position_reply_intact;
    [|unfold is_byte; lia|intros ? ? [= <- _]; unfold is_byte; lia].
  change (0x01 =? 0x01) with true. change (0x36 =? 0x36) with true.
  cbn [mbind result_bind map slice firstn skipn].
  rewrite <- fmap_take, <- fmap_drop.
  rewrite fromhex_formats
    by (apply Forall_drop, Forall_take; assumption).
  cbn [mbind result_bind]. unfold unpack_uint32_be.
  destruct (Nat.eqb_spec (length (drop 1 (take 5 rest))) 4) as [E|_];
    [|reflexivity].
  rewrite length_drop, length_take in E. lia.
Qed.

Lemma short_reply_raises_witness :
  Real_time_location MicroPython every_ms 300
    (line [0x01; 0x36; 0x00; 0x1C; 0x6B]) =
  Some {| returned := Raise StructError; printed := [];
          port_after := {| rx_wire := []; tx_log := [] |} |}.
Proof.
  eassert (E : rx_loop every_ms 300
                 (rx_init every_ms (line [0x01; 0x36; 0x00; 0x1C; 0x6B]))
               = Some _) by (vm_compute; reflexivity).
  refine (short_reply_raises MicroPython every_ms 300 _ _
            [0x00; 0x1C; 0x6B] 0x6B E eq_refl _ _ eq_refl _);
    [ repeat constructor; lia | simpl; lia | vm_compute; discriminate ].
Defined.

(** X14.  A reply that is the single byte 0x01 or 0x10, with any number
    of zero bytes behind it, comes back as the one token "01": the test
    of the first token passes, the second token does not exist, and the
    call raises [IndexError]. *)
Theorem lone_address_byte_raises rt ticks fuel u s b k :
  rx_loop ticks fuel (rx_init ticks u) = Some s ->
  rx_frame s = b :: replicate k 0 ->
  b = 0x01 \/ b = 0x10 ->
  Real_time_location rt ticks fuel u =
  Some {| returned := Raise IndexError; printed := [];
          port_after := port s |}.
Proof.
  intros Hs Hf Hb. rewrite (Real_time_location_run _ _ _ _ s Hs), Hf.
  change (b :: replicate k 0) with ([b] ++ replicate k 0).
  rewrite hex_result_zeros_last. destruct Hb as [-> | ->]; reflexivity.
Qed.

Lemma lone_address_byte_raises_witness :
  Real_time_location MicroPython every_ms 300 (line [0x10; 0x00; 0x00]) =
  Some {| returned := Raise IndexError; printed := [];
          port_after := {| rx_wire := []; tx_log := [] |} |}.
Proof.
  eassert (E : rx_loop every_ms 300
                 (rx_init every_ms (line [0x10; 0x00; 0x00]))
               = Some _) by (vm_compute; reflexivity).
  refine (lone_address_byte_raises MicroPython every_ms 300 _ _ 0x10 2%nat
            E eq_refl _).
  right. reflexivity.
Defined.

(** * Latency of the receiver, and the read requests *)






(** X16.  A read request never carries a sub-code.  Whatever the name,
    the frame is the address, at most one code byte, and the terminator;
    for [S_Conf] and [S_State], whose entries in the table are commented
    as needing the sub-codes 0x6C and 0x7A, the frame is the three bytes
    address, 0x42 or 0x43, 0x6B. *)
Theorem read_request_has_no_subcode rt addr s :
  storable rt addr ->
  (exists f, Read_Sys_Params rt addr s = Ok f /\
             (length f <= 3)%nat /\ last f = Some 0x6B) /\
  Read_Sys_Params rt addr "S_Conf" = Ok [stored rt addr; 0x42; 0x6B] /\
  Read_Sys_Params rt addr "S_State" = Ok [stored rt addr; 0x43; 0x6B].
Proof.
  intros Ha. split; [|split].
  - destruct (func_codes !! s) as [code|] eqn:Hs.
    + rewrite (Read_Sys_Params_known _ _ _ code) by assumption.
      eexists; split; [reflexivity|]. split; [simpl; lia|reflexivity].
    + rewrite Read_Sys_Params_unknown by assumption.
      eexists; split; [reflexivity|]. split; [simpl; lia|reflexivity].
  - now apply Read_Sys_Params_known.
  - now apply Read_Sys_Params_known.
Qed.

Lemma read_request_has_no_subcode_witness :
  (exists f, Read_Sys_Params CPython 3 "S_VEL" = Ok f /\
             (length f <= 3)%nat /\ last f = Some 0x6B) /\
  Read_Sys_Params CPython 3 "S_Conf" = Ok [stored CPython 3; 0x42; 0x6B] /\
  Read_Sys_Params CPython 3 "S_State" = Ok [stored CPython 3; 0x43; 0x6B].
Proof.
  apply (read_request_has_no_subcode CPython 3 "S_VEL").
  unfold storable, is_byte. lia.
Defined.
